(** * fan_art_roller: the word store, the edit session and the handlers

    A shallow embedding of [fan_art_roller.py].  Python text is a sequence
    of code points; the [words] table of the SQLite file is the list of its
    rows; every coroutine is a program over the state it touches that ends
    in a value or in a raised exception. *)

From Stdlib Require Import ZArith NArith Ascii String DecimalString.
From stdpp Require Import base decidable option list sorting gmap.

Local Open Scope N_scope.

(** ** Python [str] *)

(** A [str] is a sequence of code points. *)
Abbreviation pystr := (list N).

(** A literal of the source, written with ASCII characters. *)
Definition py (s : string) : pystr := map N_of_ascii (list_ascii_of_string s).

(** [Py_UNICODE_ISSPACE]: the characters [str.strip] removes. *)
Definition isspace (c : N) : bool :=
  ((0x09 <=? c) && (c <=? 0x0D)) || ((0x1C <=? c) && (c <=? 0x20))
  || (c =? 0x85) || (c =? 0xA0) || (c =? 0x1680)
  || ((0x2000 <=? c) && (c <=? 0x200A))
  || (c =? 0x2028) || (c =? 0x2029) || (c =? 0x202F) || (c =? 0x205F)
  || (c =? 0x3000).

(** [Py_UNICODE_ISLINEBREAK]: the boundaries [str.splitlines] cuts at. *)
Definition islinebreak (c : N) : bool :=
  ((0x0A <=? c) && (c <=? 0x0D)) || ((0x1C <=? c) && (c <=? 0x1E))
  || (c =? 0x85) || (c =? 0x2028) || (c =? 0x2029).

Fixpoint lstrip (s : pystr) : pystr :=
  match s with
  | [] => []
  | c :: s' => if isspace c then lstrip s' else s
  end.

Definition rstrip (s : pystr) : pystr := rev (lstrip (rev s)).

(** [s.strip()] *)
Definition strip (s : pystr) : pystr := rstrip (lstrip s).

(** [s.splitlines()]: [cur] holds the characters of the line being read,
    last one first.  A carriage return followed by a line feed is one
    boundary, and no empty line is produced after the last boundary. *)
Fixpoint splitlines_from (cur : pystr) (s : pystr) : list pystr :=
  match s with
  | [] => match cur with [] => [] | _ => [rev cur] end
  | c :: s' =>
      if islinebreak c then
        match s' with
        | c' :: s'' =>
            if (c =? 0x0D) && (c' =? 0x0A)
            then rev cur :: splitlines_from [] s''
            else rev cur :: splitlines_from [] s'
        | [] => rev cur :: splitlines_from [] s'
        end
      else splitlines_from (c :: cur) s'
  end.

Definition splitlines (s : pystr) : list pystr := splitlines_from [] s.

(** [s.split(sep, maxsplit)] for a separator of one character. *)
Fixpoint split_from (sep : N) (maxsplit : nat) (cur : pystr) (s : pystr)
  : list pystr :=
  match s with
  | [] => [rev cur]
  | c :: s' =>
      match maxsplit with
      | O => [rev cur ++ s]
      | S k =>
          if c =? sep then rev cur :: split_from sep k [] s'
          else split_from sep maxsplit (c :: cur) s'
      end
  end.

Definition split (sep : N) (maxsplit : nat) (s : pystr) : list pystr :=
  split_from sep maxsplit [] s.

Definition colon : N := 0x3A.

(** [s.startswith(prefix)] *)
Fixpoint startswith (prefix s : pystr) : bool :=
  match prefix, s with
  | [], _ => true
  | _ :: _, [] => false
  | p :: prefix', c :: s' => (p =? c) && startswith prefix' s'
  end.

(** The UTF-8 encoding of a code point, as SQLite stores text. *)
Definition utf8_char (c : N) : list N :=
  if c <? 0x80 then [c]
  else if c <? 0x800 then [0xC0 + c / 64; 0x80 + c mod 64]
  else if c <? 0x10000 then
    [0xE0 + c / 64 / 64; 0x80 + (c / 64) mod 64; 0x80 + c mod 64]
  else
    [0xF0 + c / 64 / 64 / 64; 0x80 + (c / 64 / 64) mod 64;
     0x80 + (c / 64) mod 64; 0x80 + c mod 64].

Definition utf8 (s : pystr) : list N := concat (map utf8_char s).

(** The order of [ORDER BY word].  SQLite compares the stored bytes one by
    one and puts a proper prefix first; on the UTF-8 encodings of two texts
    that is the same comparison on their code points ([utf8_order] below),
    so the order is given on code points. *)
Fixpoint str_leb (a b : pystr) : bool :=
  match a, b with
  | [], _ => true
  | _ :: _, [] => false
  | x :: a', y :: b' =>
      if x <? y then true else if x =? y then str_leb a' b' else false
  end.

Definition str_le (a b : pystr) : Prop := str_leb a b = true.

#[global] Instance str_le_dec : RelDecision str_le.
Proof. intros a b. unfold str_le. apply _. Defined.

(** ** Programs: a state, and a value or a raised exception *)

Inductive exn := IntegrityError | KeyError | AttributeError | IndexError.

#[global] Instance exn_eq_dec : EqDecision exn.
Proof. solve_decision. Defined.

Inductive result (A : Type) : Type :=
| Ok (a : A)
| Raise (e : exn).
Arguments Ok {A} a.
Arguments Raise {A} e.

(** A coroutine of the source over the state [S] it reads and writes.  What
    it wrote before an exception stays written. *)
Definition Prog (S A : Type) : Type := S -> result A * S.

Definition ret {S A} (a : A) : Prog S A := fun s => (Ok a, s).

Definition raise {S A} (e : exn) : Prog S A := fun s => (Raise e, s).

Definition bind {S A B} (m : Prog S A) (k : A -> Prog S B) : Prog S B :=
  fun s =>
    match m s with
    | (Ok a, s') => k a s'
    | (Raise e, s') => (Raise e, s')
    end.

(** [try: m except e: h] *)
Definition try_except {S A} (m : Prog S A) (e : exn) (h : Prog S A)
  : Prog S A :=
  fun s =>
    match m s with
    | (Ok a, s') => (Ok a, s')
    | (Raise e', s') => if decide (e' = e) then h s' else (Raise e', s')
    end.

Declare Scope prog_scope.
Delimit Scope prog_scope with prog.
Notation "x <- c1 ;; c2" := (bind c1 (fun x => c2))
  (at level 100, c1 at next level, c2 at level 200, right associativity,
   only parsing) : prog_scope.
Notation "c1 ;; c2" := (bind c1 (fun _ => c2))
  (at level 100, c2 at level 200, right associativity, only parsing)
  : prog_scope.
Open Scope prog_scope.

(** [random.choice(seq)] with the drawn number [r] given: any [r] is a
    possible draw, and position [r mod len(seq)] is returned. *)
Definition random_choice {S A} (r : nat) (seq : list A) : Prog S A :=
  match seq !! (r mod length seq)%nat with
  | Some x => ret x
  | None => raise IndexError
  end.

(** ** The [words] table *)

Record row := Row { user_id : Z; list_name : pystr; word : pystr }.

#[global] Instance row_eq_dec : EqDecision row.
Proof. solve_decision. Defined.

(** The rows of [words], oldest first. *)
Abbreviation table := (list row).

(** [SELECT word FROM words WHERE user_id=? AND list_name=? ORDER BY word] *)
Definition select_words (u : Z) (l : pystr) (t : table) : list pystr :=
  merge_sort str_le
    (word <$> filter (fun r => user_id r = u /\ list_name r = l) t).

Definition sql_select_words (u : Z) (l : pystr) : Prog table (list pystr) :=
  fun t => (Ok (select_words u l t), t).

(** [INSERT INTO words(user_id, list_name, word) VALUES(?,?,?)]: the three
    columns are the primary key, so a row that is already there is refused. *)
Definition sql_insert (r : row) : Prog table unit :=
  fun t => if decide (r ∈ t) then (Raise IntegrityError, t)
           else (Ok tt, t ++ [r]).

(** [DELETE FROM words WHERE user_id=? AND list_name=? AND word=?], with
    [cur.rowcount] as its value. *)
Definition sql_delete_word (u : Z) (l w : pystr) : Prog table nat :=
  fun t => (Ok (length (filter (fun r => r = Row u l w) t)),
            filter (fun r => r <> Row u l w) t).

(** [DELETE FROM words WHERE user_id=? AND list_name=?] *)
Definition sql_delete_list (u : Z) (l : pystr) : Prog table unit :=
  fun t => (Ok tt, filter (fun r => ~ (user_id r = u /\ list_name r = l)) t).

(** ** class Storage *)

Module Storage.

(** The table [init] creates. *)
Definition init : table := [].

Definition get_words (user_id : Z) (list_name : pystr)
  : Prog table (list pystr) :=
  rows <- sql_select_words user_id list_name ;;
  ret rows.

Definition add_word (user_id : Z) (list_name : pystr) (word : pystr)
  : Prog table bool :=
  let word := strip word in
  if decide (word = []) then ret false
  else
    try_except
      (sql_insert (Row user_id list_name word) ;;
       ret true)
      IntegrityError
      (ret false).

Definition remove_word (user_id : Z) (list_name : pystr) (word : pystr)
  : Prog table bool :=
  let word := strip word in
  rowcount <- sql_delete_word user_id list_name word ;;
  let removed := bool_decide (0 < rowcount)%nat in
  ret removed.

Definition clear_list (user_id : Z) (list_name : pystr) : Prog table unit :=
  sql_delete_list user_id list_name.

(** [ra] and [rb] are the numbers the two calls of [random.choice] draw. *)
Definition roll (ra rb : nat) (user_id : Z)
  : Prog table (option pystr * option pystr) :=
  a <- get_words user_id (py "A") ;;
  b <- get_words user_id (py "B") ;;
  if decide (a = [] \/ b = []) then ret (None, None)
  else
    x <- random_choice ra a ;;
    y <- random_choice rb b ;;
    ret (Some x, Some y).

End Storage.

(** ** UI *)

(** The fixed captions of the buttons, and a word as a caption. *)
Inductive caption :=
| EditFandoms | EditSituations | RollCaption
| AddWord | RemoveWord | Back | CancelBack
| WordCaption (w : pystr).

Record button := Button { button_text : caption; callback_data : pystr }.

(** An inline keyboard with one button per row ([kb.adjust(1)]). *)
Definition keyboard := list button.

(** [str(i)] of an index. *)
Definition str_of_nat (i : nat) : pystr :=
  py (NilEmpty.string_of_uint (Nat.to_uint i)).

Definition kb_main : keyboard :=
  [ Button EditFandoms (py "edit:A");
    Button EditSituations (py "edit:B");
    Button RollCaption (py "roll") ].

Definition kb_edit (list_name : pystr) : keyboard :=
  [ Button AddWord (py "add:" ++ list_name);
    Button RemoveWord (py "remove:" ++ list_name);
    Button Back (py "back") ].

Definition kb_cancel : keyboard := [ Button CancelBack (py "back") ].

Definition make_remove_kb (list_name : pystr) (words : list pystr)
  : keyboard :=
  imap (fun i w =>
          Button (WordCaption w)
                 (py "do_remove:" ++ list_name ++ [colon] ++ str_of_nat i))
       words
  ++ [ Button Back (py "remove_back:" ++ list_name) ].

(** What is appended to the text of the edit screen. *)
Inductive suffix :=
| NoSuffix
| AddedSkipped (added skipped : nat)
| NothingToRemove
| Removed
| NotFound.

(** The texts the handlers send, with the values they are formatted from
    in place of the formatted string. *)
Inductive text :=
| MainText (a b : nat)
| EditText (list_name : pystr) (count : nat) (preview : list pystr)
           (tail : bool) (s : suffix)
| ListEmptyText
| RollText (a b : pystr)
| AddPromptText (list_name : pystr)
| RemovePromptText (list_name : pystr)
| BadDataText
| BadIndexText.

(** [text + suffix] *)
Definition add_suffix (t : text) (s : suffix) : text :=
  match t with
  | EditText l n p m _ => EditText l n p m s
  | _ => t
  end.

Definition text_main (user_id : Z) : Prog table text :=
  a <- Storage.get_words user_id (py "A") ;;
  b <- Storage.get_words user_id (py "B") ;;
  ret (MainText (length a) (length b)).

Definition text_edit (user_id : Z) (list_name : pystr) : Prog table text :=
  words <- Storage.get_words user_id list_name ;;
  let preview := take 25 words in
  let tail := bool_decide (25 < length words)%nat in
  ret (EditText list_name (length words) preview tail NoSuffix).

(** ** FSM *)

Inductive EditStates := waiting_add.

#[global] Instance EditStates_eq_dec : EqDecision EditStates.
Proof. solve_decision. Defined.

(** The data of a context: the two keys the handlers store, each absent
    until [update_data] writes it. *)
Record fsm_data := FsmData {
  data_list_name : option pystr;
  data_menu_message_id : option Z }.

Record FSMContext := Context {
  ctx_state : option EditStates;
  ctx_data : fsm_data }.

(** The context of a user the bot has not yet met, and of one whose state
    was cleared. *)
Definition idle : FSMContext := Context None (FsmData None None).

(** ** The transport *)

(** A message of a chat.  [msg_chat] is [message.chat.id]: the id of the
    user in the private chat with the bot, the id of the group in a group. *)
Record Message := {
  msg_from_user : Z;
  msg_chat : Z;
  msg_message_id : Z;
  msg_text : option pystr }.

(** A pressed button.  [callback.message] is the message the button is
    under: a [Message], or an [InaccessibleMessage] when Telegram no longer
    hands the message itself to the bot (it was deleted, or is too old).
    Either of them has the chat and the message id, and [cb_accessible]
    tells which of the two it is.  It is [None] only for a button under an
    inline message, and the bot sends its keyboards with messages of a
    chat. *)
Record CallbackQuery := {
  cb_from_user : Z;
  cb_chat : Z;
  cb_message_id : Z;
  cb_accessible : bool;
  cb_data : pystr }.

(** The calls a handler makes on the transport, each with the chat it
    goes to. *)
Inductive action :=
| callback_answer
| message_answer (chat_id : Z) (t : text) (reply_markup : option keyboard)
| edit_text (chat_id message_id : Z) (t : text) (reply_markup : keyboard)
| message_delete (chat_id message_id : Z).

(** What a handler runs on: the table, the context of the chat and user
    the update comes from, and the calls made so far. *)
Record env := Env {
  db : table;
  state : FSMContext;
  sent : list action }.

Definition storage {A} (p : Prog table A) : Prog env A :=
  fun e => let '(r, t) := p (db e) in (r, Env t (state e) (sent e)).

Definition send (a : action) : Prog env unit :=
  fun e => (Ok tt, Env (db e) (state e) (sent e ++ [a])).

(** [state.clear()] *)
Definition state_clear : Prog env unit :=
  fun e => (Ok tt, Env (db e) idle (sent e)).

(** [state.set_state(s)] *)
Definition state_set_state (s : EditStates) : Prog env unit :=
  fun e => (Ok tt, Env (db e) (Context (Some s) (ctx_data (state e))) (sent e)).

(** [state.update_data(list_name=l, menu_message_id=m)] *)
Definition state_update_data (l : pystr) (m : Z) : Prog env unit :=
  fun e => (Ok tt, Env (db e)
                       (Context (ctx_state (state e)) (FsmData (Some l) (Some m)))
                       (sent e)).

(** [state.get_data()] *)
Definition state_get_data : Prog env fsm_data :=
  fun e => (Ok (ctx_data (state e)), e).

(** [d[key]] of a dict: [KeyError] when the key is absent. *)
Definition getitem {S A} (v : option A) : Prog S A :=
  match v with
  | Some x => ret x
  | None => raise KeyError
  end.

(** [obj.attr.method()] where [attr] may be [None]. *)
Definition not_none {S A} (v : option A) : Prog S A :=
  match v with
  | Some x => ret x
  | None => raise AttributeError
  end.

(** The lookup of [callback.message.edit_text].  Python evaluates it before
    the arguments of the call, and an [InaccessibleMessage] has no such
    attribute. *)
Definition getattr_edit_text (callback : CallbackQuery) : Prog env unit :=
  if cb_accessible callback then ret tt else raise AttributeError.

(** [seq[i]] for an index that is not negative. *)
Definition item {S A} (seq : list A) (i : nat) : Prog S A :=
  match seq !! i with
  | Some x => ret x
  | None => raise IndexError
  end.

(** The loop of [msg_add] over the lines, with its two counters. *)
Fixpoint add_lines (user_id : Z) (list_name : pystr) (lines : list pystr)
  (added skipped : nat) : Prog table (nat * nat) :=
  match lines with
  | [] => ret (added, skipped)
  | line :: lines' =>
      ok <- Storage.add_word user_id list_name line ;;
      if ok : bool then add_lines user_id list_name lines' (S added) skipped
      else add_lines user_id list_name lines' added (S skipped)
  end.

(** Python's truth value of a [str] that may be [None]. *)
Definition truthy (v : option pystr) : bool :=
  match v with
  | Some (_ :: _) => true
  | _ => false
  end.

(** [f"{v}"] *)
Definition fmt (v : option pystr) : pystr :=
  match v with
  | Some s => s
  | None => py "None"
  end.

(** ** Handlers *)

Section Handlers.

(** Python's [int(s)], [None] for a [ValueError]. *)
Variable int : pystr -> option Z.

(** aiogram's [Command(name)] filter ([CommandStart()] is [Command("start")]). *)
Variable command : pystr -> Message -> bool.

(** Whether the installed aiogram gives an [InaccessibleMessage] the
    shortcut [answer]: its later releases do, the earlier ones do not. *)
Variable has_answer : bool.

(** The lookup of [callback.message.answer]. *)
Definition getattr_answer (callback : CallbackQuery) : Prog env unit :=
  if cb_accessible callback || has_answer then ret tt
  else raise AttributeError.

Definition cmd_start (message : Message) : Prog env unit :=
  state_clear ;;
  t <- storage (text_main (msg_from_user message)) ;;
  send (message_answer (msg_chat message) t (Some kb_main)).

Definition cmd_menu (message : Message) : Prog env unit :=
  state_clear ;;
  t <- storage (text_main (msg_from_user message)) ;;
  send (message_answer (msg_chat message) t (Some kb_main)).

Definition cb_back (callback : CallbackQuery) : Prog env unit :=
  state_clear ;;
  send callback_answer ;;
  getattr_edit_text callback ;;
  t <- storage (text_main (cb_from_user callback)) ;;
  send (edit_text (cb_chat callback) (cb_message_id callback) t kb_main).

Definition cb_edit (callback : CallbackQuery) : Prog env unit :=
  state_clear ;;
  send callback_answer ;;
  list_name <- item (split colon 1 (cb_data callback)) 1 ;;
  getattr_edit_text callback ;;
  t <- storage (text_edit (cb_from_user callback) list_name) ;;
  send (edit_text (cb_chat callback) (cb_message_id callback) t
          (kb_edit list_name)).

Definition cb_roll (ra rb : nat) (callback : CallbackQuery) : Prog env unit :=
  send callback_answer ;;
  ab <- storage (Storage.roll ra rb (cb_from_user callback)) ;;
  let '(a, b) := ab in
  if negb (truthy a) || negb (truthy b) then
    getattr_edit_text callback ;;
    send (edit_text (cb_chat callback) (cb_message_id callback)
            ListEmptyText kb_main)
  else
    getattr_edit_text callback ;;
    send (edit_text (cb_chat callback) (cb_message_id callback)
            (RollText (fmt a) (fmt b)) kb_main).

Definition cb_add (callback : CallbackQuery) : Prog env unit :=
  send callback_answer ;;
  list_name <- item (split colon 1 (cb_data callback)) 1 ;;
  state_set_state waiting_add ;;
  state_update_data list_name (cb_message_id callback) ;;
  getattr_edit_text callback ;;
  send (edit_text (cb_chat callback) (cb_message_id callback)
          (AddPromptText list_name) kb_cancel).

Definition msg_add (message : Message) : Prog env unit :=
  data <- state_get_data ;;
  list_name <- getitem (data_list_name data) ;;
  menu_message_id <- getitem (data_menu_message_id data) ;;
  text <- not_none (msg_text message) ;;
  let lines := strip <$> splitlines text in
  let lines := filter (fun line => line <> []) lines in
  counts <- storage (add_lines (msg_from_user message) list_name lines 0 0) ;;
  let '(added, skipped) := counts in
  (* try: await message.delete() / except Exception: pass *)
  send (message_delete (msg_chat message) (msg_message_id message)) ;;
  state_clear ;;
  t <- storage (text_edit (msg_from_user message) list_name) ;;
  send (edit_text (msg_chat message) menu_message_id
          (add_suffix t (AddedSkipped added skipped)) (kb_edit list_name)).

Definition cb_remove_show_list (callback : CallbackQuery) : Prog env unit :=
  send callback_answer ;;
  list_name <- item (split colon 1 (cb_data callback)) 1 ;;
  let user_id := cb_from_user callback in
  words <- storage (Storage.get_words user_id list_name) ;;
  if decide (words = []) then
    getattr_edit_text callback ;;
    t <- storage (text_edit user_id list_name) ;;
    send (edit_text (cb_chat callback) (cb_message_id callback)
            (add_suffix t NothingToRemove) (kb_edit list_name))
  else
    getattr_edit_text callback ;;
    send (edit_text (cb_chat callback) (cb_message_id callback)
            (RemovePromptText list_name) (make_remove_kb list_name words)).

Definition cb_remove_back (callback : CallbackQuery) : Prog env unit :=
  send callback_answer ;;
  list_name <- item (split colon 1 (cb_data callback)) 1 ;;
  getattr_edit_text callback ;;
  t <- storage (text_edit (cb_from_user callback) list_name) ;;
  send (edit_text (cb_chat callback) (cb_message_id callback) t
          (kb_edit list_name)).

Definition cb_do_remove (callback : CallbackQuery) : Prog env unit :=
  send callback_answer ;;
  let parts := split colon 2 (cb_data callback) in
  if decide (length parts < 3)%nat then
    getattr_answer callback ;;
    send (message_answer (cb_chat callback) BadDataText None)
  else
    list_name <- item parts 1 ;;
    digits <- item parts 2 ;;
    match int digits with
    | None =>
        getattr_answer callback ;;
        send (message_answer (cb_chat callback) BadIndexText None)
    | Some index =>
        let user_id := cb_from_user callback in
        words <- storage (Storage.get_words user_id list_name) ;;
        if decide (index < 0 \/ index >= Z.of_nat (length words))%Z then
          getattr_edit_text callback ;;
          t <- storage (text_edit user_id list_name) ;;
          send (edit_text (cb_chat callback) (cb_message_id callback) t
                  (kb_edit list_name))
        else
          word <- item words (Z.to_nat index) ;;
          ok <- storage (Storage.remove_word user_id list_name word) ;;
          let suffix := if ok : bool then Removed else NotFound in
          getattr_edit_text callback ;;
          t <- storage (text_edit user_id list_name) ;;
          send (edit_text (cb_chat callback) (cb_message_id callback)
                  (add_suffix t suffix) (kb_edit list_name))
    end.

Definition cb_clear (callback : CallbackQuery) : Prog env unit :=
  send callback_answer ;;
  list_name <- item (split colon 1 (cb_data callback)) 1 ;;
  storage (Storage.clear_list (cb_from_user callback) list_name) ;;
  getattr_edit_text callback ;;
  t <- storage (text_edit (cb_from_user callback) list_name) ;;
  send (edit_text (cb_chat callback) (cb_message_id callback) t
          (kb_edit list_name)).

(** ** The router *)

Inductive update :=
| message_update (message : Message)
| callback_update (callback : CallbackQuery).

Definition from_user (upd : update) : Z :=
  match upd with
  | message_update m => msg_from_user m
  | callback_update c => cb_from_user c
  end.

Definition chat_of (upd : update) : Z :=
  match upd with
  | message_update m => msg_chat m
  | callback_update c => cb_chat c
  end.

(** The key of the context an update is handled with.  [Dispatcher()]
    keeps, by default, one context for each pair of a chat and a user. *)
Definition key_of (upd : update) : Z * Z := (chat_of upd, from_user upd).

(** The first handler, in the order of registration, whose filter accepts
    the update; [st] is the state of the context of the update. *)
Definition route (ra rb : nat) (upd : update) (st : option EditStates)
  : option (Prog env unit) :=
  match upd with
  | message_update m =>
      if command (py "start") m then Some (cmd_start m)
      else if command (py "menu") m then Some (cmd_menu m)
      else if decide (st = Some waiting_add) then Some (msg_add m)
      else None
  | callback_update c =>
      let data := cb_data c in
      if decide (data = py "back") then Some (cb_back c)
      else if startswith (py "edit:") data then Some (cb_edit c)
      else if decide (data = py "roll") then Some (cb_roll ra rb c)
      else if startswith (py "add:") data then Some (cb_add c)
      else if startswith (py "remove:") data then Some (cb_remove_show_list c)
      else if startswith (py "remove_back:") data then Some (cb_remove_back c)
      else if startswith (py "do_remove:") data then Some (cb_do_remove c)
      else if startswith (py "clear:") data then Some (cb_clear c)
      else None
  end.

(** The bot between two updates: the table, and the contexts by chat and
    user. *)
Record world := World {
  w_db : table;
  w_fsm : gmap (Z * Z) FSMContext }.

(** The context of user [k.2] in chat [k.1]. *)
Definition context_of (w : world) (k : Z * Z) : FSMContext :=
  default idle (w_fsm w !! k).

Inductive outcome :=
| unhandled
| handled (r : result unit) (calls : list action).

(** One update through the router and the chosen handler. *)
Definition feed_update (ra rb : nat) (upd : update) (w : world)
  : outcome * world :=
  let k := key_of upd in
  match route ra rb upd (ctx_state (context_of w k)) with
  | None => (unhandled, w)
  | Some h =>
      let '(r, e) := h (Env (w_db w) (context_of w k) []) in
      (handled r (sent e), World (db e) (<[k := state e]> (w_fsm w)))
  end.

(** The state at start-up, after [storage.init()]. *)
Definition initial : world := World Storage.init ∅.

(** The states the bot can be in. *)
Inductive reachable : world -> Prop :=
| reachable_initial : reachable initial
| reachable_update ra rb upd w :
    reachable w -> reachable (feed_update ra rb upd w).2.

End Handlers.

(** ** Reading a program's run *)

Definition value {S A} (p : Prog S A) (s : S) : result A := (p s).1.
Definition after {S A} (p : Prog S A) (s : S) : S := (p s).2.

(** The two states of a session. *)
Definition Idle (c : FSMContext) : Prop := ctx_state c = None.
Definition AwaitingText (c : FSMContext) : Prop :=
  ctx_state c = Some waiting_add.

(** ** Sample instances of the two library functions *)

Definition digit_value (c : N) : option Z :=
  if (48 <=? c) && (c <=? 57) then Some (Z.of_N (c - 48)) else None.

Fixpoint decimal (acc : Z) (s : pystr) : option Z :=
  match s with
  | [] => Some acc
  | c :: s' =>
      match digit_value c with
      | Some d => decimal (10 * acc + d) s'
      | None => None
      end
  end.

(** [int] on an ASCII numeral with an optional minus sign. *)
Definition int_ascii (s : pystr) : option Z :=
  match s with
  | [] => None
  | 45 :: [] => None
  | 45 :: ds => Z.opp <$> decimal 0 ds
  | _ => decimal 0 s
  end.

(** [Command(name)] on a message whose text is the bare command. *)
Definition command_exact (name : pystr) (m : Message) : bool :=
  bool_decide (msg_text m = Some (47 :: name)).

(** * The vocabulary of the properties *)

(** ** Programs that keep a property of the state *)

Definition preserves {S A} (I : S -> Prop) (p : Prog S A) : Prop :=
  forall s, I s -> I (p s).2.

(** A program that only reads. *)
Definition read_only {S A} (p : Prog S A) : Prop := forall s, (p s).2 = s.

(** ** The invariants of the table *)

(** The primary key: no row twice. *)
Definition unique (t : table) : Prop := NoDup t.

(** Every stored word is trimmed and not empty. *)
Definition trimmed (t : table) : Prop :=
  forall r, r ∈ t -> strip (word r) = word r /\ word r <> [].

Definition table_ok (t : table) : Prop := unique t /\ trimmed t.

(** ** Text and views *)

(** Two lists of bytes that differ first at a position where the first
    has the smaller byte. *)
Fixpoint differs_lt (l1 l2 : list N) : bool :=
  match l1, l2 with
  | u :: r1, v :: r2 =>
      if u <? v then true else if u =? v then differs_lt r1 r2 else false
  | _, _ => false
  end.

(** The lexicographic order, spelled out: a prefix comes first, and
    otherwise the first position where the two differ decides. *)
Definition lexicographic (a b : pystr) : Prop :=
  (exists b', b = a ++ b')
  \/ (exists p x y a' b', a = p ++ x :: a' /\ b = p ++ y :: b' /\ x < y).

(** The lines of a submitted text that reach [add_word]. *)
Definition surviving_lines (raw_text : pystr) : list pystr :=
  filter (fun line => line <> []) (strip <$> splitlines raw_text).

(** The bulk add as the specification words it: [add] is called for each
    line in turn, and each call counts as added when it returns true and as
    skipped otherwise. *)
Fixpoint tally (u : Z) (l : pystr) (lines : list pystr) (t : table)
  : nat * nat * table :=
  match lines with
  | [] => (0, 0, t)%nat
  | line :: rest =>
      let '(ok, t1) := Storage.add_word u l line t in
      let '(added, skipped, t2) := tally u l rest t1 in
      match ok with
      | Ok true => (S added, skipped, t2)
      | _ => (added, S skipped, t2)
      end
  end.

(** The edit screen of list [l] on table [t]. *)
Definition edit_view (u : Z) (l : pystr) (t : table) : text :=
  let words := select_words u l t in
  EditText l (length words) (take 25 words) (bool_decide (25 < length words)%nat)
           NoSuffix.

(** How a callback handler ends once it has answered the callback and left
    the table [t] and the context [st]: it edits the message pressed to the
    screen [v] with keyboard [kb], or raises when that message is
    inaccessible. *)
Definition edits (c : CallbackQuery) (e : env) (t : table) (st : FSMContext)
  (v : text) (kb : keyboard) : result unit * env :=
  if cb_accessible c then
    (Ok tt,
     Env t st (sent e ++ [callback_answer;
                          edit_text (cb_chat c) (cb_message_id c) v kb]))
  else (Raise AttributeError, Env t st (sent e ++ [callback_answer])).

(** The same button pressed under a message that is accessible. *)
Definition with_message (c : CallbackQuery) : CallbackQuery :=
  {| cb_from_user := cb_from_user c; cb_chat := cb_chat c;
     cb_message_id := cb_message_id c; cb_accessible := true;
     cb_data := cb_data c |}.

(** The word at position [i] of a view, when [i] is within its range. *)
Definition position (words : list pystr) (i : Z) : option pystr :=
  if decide (0 <= i)%Z then words !! Z.to_nat i else None.

(** No stored word holds a line break. *)
Definition one_line (t : table) : Prop :=
  forall r c, r ∈ t -> c ∈ word r -> islinebreak c = false.

(** ** The states the bot reaches *)

(** A context that awaits text has both keys in its data. *)
Definition session_ok (c : FSMContext) : Prop :=
  ctx_state c = Some waiting_add ->
  is_Some (data_list_name (ctx_data c))
  /\ is_Some (data_menu_message_id (ctx_data c)).

Definition world_ok (w : world) : Prop :=
  table_ok (w_db w) /\ forall k, session_ok (context_of w k).

(** * Properties *)

(** ** Text *)

Section Text.

Lemma lstrip_idemp s : lstrip (lstrip s) = lstrip s.
Proof.
  induction s as [|c s IH]; simpl; [done|].
  destruct (isspace c) eqn:Hc; [done|]. simpl. by rewrite Hc.
Qed.

Lemma lstrip_snoc s c :
  isspace c = false -> lstrip (s ++ [c]) = lstrip s ++ [c].
Proof.
  intros Hc. induction s as [|d s IH]; simpl.
  - by rewrite Hc.
  - by destruct (isspace d).
Qed.

Lemma rstrip_cons c s :
  isspace c = false -> rstrip (c :: s) = c :: rstrip s.
Proof.
  intros Hc. unfold rstrip. simpl.
  rewrite lstrip_snoc by done. by rewrite rev_unit.
Qed.

Lemma rstrip_idemp s : rstrip (rstrip s) = rstrip s.
Proof. unfold rstrip. by rewrite rev_involutive, lstrip_idemp. Qed.

Lemma lstrip_head s :
  lstrip s = [] \/ exists c s', lstrip s = c :: s' /\ isspace c = false.
Proof.
  induction s as [|c s IH]; simpl; [by left|].
  destruct (isspace c) eqn:Hc; [done|]. right. by exists c, s.
Qed.

Lemma strip_idemp s : strip (strip s) = strip s.
Proof.
  unfold strip. destruct (lstrip_head s) as [->|(c & s' & -> & Hc)]; [done|].
  rewrite rstrip_cons by done. simpl. rewrite Hc.
  rewrite rstrip_cons by done. by rewrite rstrip_idemp.
Qed.

Lemma str_leb_refl a : str_leb a a = true.
Proof.
  induction a as [|x a IH]; simpl; [done|].
  by rewrite N.ltb_irrefl, N.eqb_refl.
Qed.

Lemma str_leb_total a b : str_leb a b = true \/ str_leb b a = true.
Proof.
  revert b. induction a as [|x a IH]; intros [|y b]; simpl; auto.
  destruct (N.ltb_spec x y), (N.ltb_spec y x); auto; try lia.
  assert (x = y) as -> by lia. rewrite N.eqb_refl. apply IH.
Qed.

Lemma str_leb_trans a b c :
  str_leb a b = true -> str_leb b c = true -> str_leb a c = true.
Proof.
  revert b c. induction a as [|x a IH]; intros [|y b] [|z c]; simpl; try done.
  destruct (N.ltb_spec x y), (N.ltb_spec y z), (N.ltb_spec x z);
    try done; try lia;
    destruct (N.eqb_spec x y), (N.eqb_spec y z), (N.eqb_spec x z);
    try done; try lia.
  apply IH.
Qed.

Lemma str_leb_antisym a b :
  str_leb a b = true -> str_leb b a = true -> a = b.
Proof.
  revert b. induction a as [|x a IH]; intros [|y b]; simpl; try done.
  destruct (N.ltb_spec x y), (N.ltb_spec y x),
    (N.eqb_spec x y), (N.eqb_spec y x); try done; try lia.
  intros. subst. f_equal. by apply IH.
Qed.

#[global] Instance str_le_refl : Reflexive str_le.
Proof. intros a. apply str_leb_refl. Qed.

#[global] Instance str_le_trans : Transitive str_le.
Proof. intros a b c. apply str_leb_trans. Qed.

#[global] Instance str_le_total : Total str_le.
Proof. intros a b. apply str_leb_total. Qed.

#[global] Instance str_le_antisym : AntiSymm (=) str_le.
Proof. intros a b. apply str_leb_antisym. Qed.

End Text.

(** ** The table and the ordered view *)

Section Table.

Implicit Types (t : table) (u : Z) (l w : pystr) (r : row).

Lemma StronglySorted_filter {A} (R : relation A) (P : A -> Prop)
  `{!forall x, Decision (P x)} (xs : list A) :
  StronglySorted R xs -> StronglySorted R (filter P xs).
Proof.
  induction 1 as [|x xs Hs IH Hx]; [constructor|].
  rewrite filter_cons. destruct (decide (P x)); [|done].
  constructor; [done|].
  rewrite Forall_forall in Hx |- *. intros y [_ Hy]%list_elem_of_filter.
  by apply Hx.
Qed.

Lemma filter_fmap {A B} (f : A -> B) (P : B -> Prop)
  `{!forall x, Decision (P x)} (xs : list A) :
  filter P (f <$> xs) = f <$> filter (fun x => P (f x)) xs.
Proof.
  induction xs as [|x xs IH]; [done|].
  rewrite fmap_cons, !filter_cons. simpl.
  destruct (decide (P (f x))); by rewrite IH.
Qed.

Lemma filter_all {A} (P : A -> Prop) `{!forall x, Decision (P x)}
  (xs : list A) :
  (forall x, x ∈ xs -> P x) -> filter P xs = xs.
Proof.
  induction xs as [|x xs IH]; intros Hall; [done|].
  rewrite filter_cons_True by (apply Hall; left).
  f_equal. apply IH. intros y Hy. apply Hall. by right.
Qed.

Lemma filter_none {A} (P : A -> Prop) `{!forall x, Decision (P x)}
  (xs : list A) :
  (forall x, x ∈ xs -> ~ P x) -> filter P xs = [].
Proof.
  induction xs as [|x xs IH]; intros Hall; [done|].
  rewrite filter_cons_False by (apply Hall; left).
  apply IH. intros y Hy. apply Hall. by right.
Qed.

Lemma select_words_Permutation u l t :
  select_words u l t
  ≡ₚ word <$> filter (fun r => user_id r = u /\ list_name r = l) t.
Proof. apply merge_sort_Permutation. Qed.

Lemma elem_of_select_words u l t w :
  w ∈ select_words u l t <-> Row u l w ∈ t.
Proof.
  rewrite select_words_Permutation, list_elem_of_fmap. split.
  - intros ([u' l' w'] & -> & Hr). apply list_elem_of_filter in Hr.
    simpl in Hr. by destruct Hr as [[-> ->] ?].
  - intros Hr. exists (Row u l w). split; [done|].
    by apply list_elem_of_filter.
Qed.

Lemma select_words_sorted u l t : StronglySorted str_le (select_words u l t).
Proof. apply (StronglySorted_merge_sort str_le). Qed.

Lemma select_words_NoDup u l t : NoDup t -> NoDup (select_words u l t).
Proof.
  intros Ht. rewrite select_words_Permutation.
  apply NoDup_fmap_2_strong; [|by apply NoDup_filter].
  intros [u1 l1 w1] [u2 l2 w2] H1 H2 Hw.
  apply list_elem_of_filter in H1, H2. simpl in *.
  destruct H1 as [[-> ->] _], H2 as [[-> ->] _]. by subst.
Qed.

(** The ordered view depends on the rows only, not on their order. *)
Lemma sorted_unique (xs ys : list pystr) :
  StronglySorted str_le xs -> StronglySorted str_le ys -> xs ≡ₚ ys -> xs = ys.
Proof. apply (StronglySorted_unique str_le). Qed.

Lemma select_words_filter (P : row -> Prop) (Q : pystr -> Prop)
  `{!forall r, Decision (P r)} `{!forall w, Decision (Q w)} u l t :
  (forall w, P (Row u l w) <-> Q w) ->
  select_words u l (filter P t) = filter Q (select_words u l t).
Proof.
  intros HPQ. apply sorted_unique.
  - apply select_words_sorted.
  - apply StronglySorted_filter, select_words_sorted.
  - rewrite !select_words_Permutation, filter_fmap. f_equiv.
    rewrite !list_filter_filter.
    erewrite list_filter_iff; [done|].
    intros [u' l' w']. simpl. split.
    + intros [[-> ->] Hp]. by rewrite <- HPQ.
    + intros [Hq [-> ->]]. by rewrite HPQ.
Qed.

Lemma select_words_empty u l t :
  (forall r, r ∈ t -> ~ (user_id r = u /\ list_name r = l)) ->
  select_words u l t = [].
Proof.
  intros H. unfold select_words. by rewrite filter_none.
Qed.

Lemma length_filter_pos {A} (P : A -> Prop) `{!forall x, Decision (P x)}
  (xs : list A) :
  (0 < length (filter P xs))%nat <-> exists x, x ∈ xs /\ P x.
Proof.
  split.
  - destruct (filter P xs) as [|x ys] eqn:E; simpl; [lia|]. intros _.
    assert (x ∈ filter P xs) as Hx by (rewrite E; left).
    apply list_elem_of_filter in Hx as [HP Hx]. by exists x.
  - intros (x & Hx & HP).
    assert (x ∈ filter P xs) as Hin by by apply list_elem_of_filter.
    destruct (filter P xs); [by apply elem_of_nil in Hin|simpl; lia].
Qed.

(** *** The methods of [Storage], as equations *)

Lemma get_words_eq u l t :
  Storage.get_words u l t = (Ok (select_words u l t), t).
Proof. reflexivity. Qed.

Lemma add_word_eq u l w t :
  Storage.add_word u l w t =
  if decide (strip w = []) then (Ok false, t)
  else if decide (Row u l (strip w) ∈ t) then (Ok false, t)
  else (Ok true, t ++ [Row u l (strip w)]).
Proof.
  unfold Storage.add_word. destruct (decide (strip w = [])); [done|].
  unfold try_except, bind, sql_insert.
  by destruct (decide (Row u l (strip w) ∈ t)).
Qed.

Lemma remove_word_eq u l w t :
  Storage.remove_word u l w t =
  (Ok (bool_decide (Row u l (strip w) ∈ t)),
   filter (fun r => r <> Row u l (strip w)) t).
Proof.
  unfold Storage.remove_word, bind, sql_delete_word, ret. do 2 f_equal.
  apply bool_decide_ext. rewrite length_filter_pos. split.
  - by intros (r & Hr & ->).
  - intros Hr. by exists (Row u l (strip w)).
Qed.

Lemma clear_list_eq u l t :
  Storage.clear_list u l t =
  (Ok tt, filter (fun r => ~ (user_id r = u /\ list_name r = l)) t).
Proof. reflexivity. Qed.

Lemma random_choice_elem {S A} (r : nat) (seq : list A) (s : S) :
  seq <> [] -> exists x, random_choice r seq s = (Ok x, s) /\ x ∈ seq.
Proof.
  intros Hne. unfold random_choice.
  destruct (lookup_lt_is_Some_2 seq (r mod length seq)%nat) as [x Hx].
  { apply Nat.mod_upper_bound. by destruct seq. }
  rewrite Hx. exists x. split; [done|]. by eapply list_elem_of_lookup_2.
Qed.

Lemma roll_empty ra rb u t :
  select_words u (py "A") t = [] \/ select_words u (py "B") t = [] ->
  Storage.roll ra rb u t = (Ok (None, None), t).
Proof.
  intros H. unfold Storage.roll, bind. rewrite !get_words_eq.
  by destruct (decide _).
Qed.

Lemma roll_nonempty ra rb u t :
  select_words u (py "A") t <> [] -> select_words u (py "B") t <> [] ->
  exists x y,
    Storage.roll ra rb u t = (Ok (Some x, Some y), t)
    /\ x ∈ select_words u (py "A") t /\ y ∈ select_words u (py "B") t.
Proof.
  intros Ha Hb. unfold Storage.roll, bind. rewrite !get_words_eq.
  destruct (decide _) as [|_]; [tauto|].
  destruct (random_choice_elem ra _ t Ha) as (x & -> & Hx).
  destruct (random_choice_elem rb _ t Hb) as (y & -> & Hy).
  by exists x, y.
Qed.

End Table.

(** ** Programs that keep a property of the state *)

Section Preserves.

Context {S : Type} (I : S -> Prop).

Lemma preserves_ret {A} (a : A) : preserves I (ret a).
Proof. by intros s. Qed.

Lemma preserves_raise {A} e : preserves I (raise (A:=A) e).
Proof. by intros s. Qed.

Lemma preserves_bind {A B} (m : Prog S A) (k : A -> Prog S B) :
  preserves I m -> (forall a, preserves I (k a)) -> preserves I (bind m k).
Proof.
  intros Hm Hk s Hs. unfold bind. specialize (Hm s Hs).
  destruct (m s) as [[a|e] s']; simpl in *; [by apply Hk|done].
Qed.

Lemma preserves_try_except {A} (m h : Prog S A) e :
  preserves I m -> preserves I h -> preserves I (try_except m e h).
Proof.
  intros Hm Hh s Hs. unfold try_except. specialize (Hm s Hs).
  destruct (m s) as [[a|e'] s']; simpl in *; [done|].
  destruct (decide (e' = e)); [by apply Hh|done].
Qed.

Lemma preserves_read_only {A} (p : Prog S A) : read_only p -> preserves I p.
Proof. intros Hp s Hs. by rewrite Hp. Qed.

Lemma preserves_item {A} (seq : list A) i : preserves I (item seq i).
Proof. unfold item. destruct (seq !! i); by intros s. Qed.

Lemma preserves_getitem {A} (v : option A) : preserves I (getitem v).
Proof. destruct v; by intros s. Qed.

Lemma preserves_not_none {A} (v : option A) : preserves I (not_none v).
Proof. destruct v; by intros s. Qed.

End Preserves.

Lemma read_only_bind {S A B} (m : Prog S A) (k : A -> Prog S B) :
  read_only m -> (forall a, read_only (k a)) -> read_only (bind m k).
Proof.
  intros Hm Hk s. unfold bind. specialize (Hm s).
  destruct (m s) as [[a|e] s']; simpl in *; subst; [apply Hk|done].
Qed.

Lemma read_only_get_words u l : read_only (Storage.get_words u l).
Proof. by intros t. Qed.

Lemma read_only_text_main u : read_only (text_main u).
Proof. by intros t. Qed.

Lemma read_only_text_edit u l : read_only (text_edit u l).
Proof. by intros t. Qed.

Lemma read_only_roll ra rb u : read_only (Storage.roll ra rb u).
Proof.
  intros t.
  destruct (decide (select_words u (py "A") t = []
                    \/ select_words u (py "B") t = [])) as [He|Hne].
  - by rewrite roll_empty.
  - destruct (roll_nonempty ra rb u t) as (x & y & -> & _); tauto.
Qed.

(** *** Programs of a handler *)

Section Env.

(** A property [J] of the table seen from a handler. *)
Lemma preserves_storage_db {A} (J : table -> Prop) (p : Prog table A) :
  preserves J p -> preserves (fun e => J (db e)) (storage p).
Proof.
  intros Hp e He. unfold storage. specialize (Hp (db e) He).
  by destruct (p (db e)).
Qed.

Lemma preserves_send_db (J : table -> Prop) a :
  preserves (fun e => J (db e)) (send a).
Proof. by intros e. Qed.

Lemma preserves_state_clear_db (J : table -> Prop) :
  preserves (fun e => J (db e)) state_clear.
Proof. by intros e. Qed.

Lemma preserves_state_set_state_db (J : table -> Prop) s :
  preserves (fun e => J (db e)) (state_set_state s).
Proof. by intros e. Qed.

Lemma preserves_state_update_data_db (J : table -> Prop) l m :
  preserves (fun e => J (db e)) (state_update_data l m).
Proof. by intros e. Qed.

Lemma preserves_state_get_data (I : env -> Prop) : preserves I state_get_data.
Proof. by intros e. Qed.

Lemma preserves_getattr_edit_text (I : env -> Prop) c :
  preserves I (getattr_edit_text c).
Proof. unfold getattr_edit_text. by destruct (cb_accessible c); intros e. Qed.

Lemma preserves_getattr_answer (I : env -> Prop) has_answer c :
  preserves I (getattr_answer has_answer c).
Proof. unfold getattr_answer. by destruct (_ || _); intros e. Qed.

(** A property [K] of the context. *)
Lemma preserves_storage_state {A} (K : FSMContext -> Prop) (p : Prog table A) :
  preserves (fun e => K (state e)) (storage p).
Proof. intros e He. unfold storage. by destruct (p (db e)). Qed.

Lemma preserves_send_state (K : FSMContext -> Prop) a :
  preserves (fun e => K (state e)) (send a).
Proof. by intros e. Qed.

End Env.

Ltac preserves_step :=
  first
    [ apply preserves_bind; [|intros ?]
    | apply preserves_ret
    | apply preserves_raise
    | apply preserves_item
    | apply preserves_getitem
    | apply preserves_not_none
    | apply preserves_state_get_data
    | apply preserves_getattr_edit_text
    | apply preserves_getattr_answer
    | apply preserves_send_db
    | apply preserves_send_state
    | apply preserves_state_clear_db
    | apply preserves_state_set_state_db
    | apply preserves_state_update_data_db
    | apply preserves_storage_state
    | apply preserves_storage_db
    | match goal with
      | |- preserves _ (match ?x with _ => _ end) => destruct x
      end ].

(** ** The invariants of the table *)

Section TableInvariant.

Implicit Types (t : table) (u : Z) (l w : pystr).

Lemma table_ok_filter (P : row -> Prop) `{!forall r, Decision (P r)} t :
  table_ok t -> table_ok (filter P t).
Proof.
  intros [Hu Ht]. split; [by apply NoDup_filter|].
  intros r [_ Hr]%list_elem_of_filter. by apply Ht.
Qed.

Lemma add_word_table_ok u l w : preserves table_ok (Storage.add_word u l w).
Proof.
  intros t [Hu Ht]. rewrite add_word_eq.
  destruct (decide (strip w = [])) as [|Hne]; [done|].
  destruct (decide (_ ∈ t)) as [|Hnew]; [done|]. simpl. split.
  - apply NoDup_app. split_and!; [done| |apply NoDup_singleton].
    intros r Hr ->%list_elem_of_singleton. done.
  - intros r [Hr| ->%list_elem_of_singleton]%elem_of_app; [by apply Ht|].
    simpl. split; [apply strip_idemp|done].
Qed.

Lemma remove_word_table_ok u l w :
  preserves table_ok (Storage.remove_word u l w).
Proof. intros t Ht. rewrite remove_word_eq. by apply table_ok_filter. Qed.

Lemma clear_list_table_ok u l : preserves table_ok (Storage.clear_list u l).
Proof. intros t Ht. rewrite clear_list_eq. by apply table_ok_filter. Qed.

Lemma add_lines_preserves (J : table -> Prop) u l lines a s :
  (forall w, preserves J (Storage.add_word u l w)) ->
  preserves J (add_lines u l lines a s).
Proof.
  intros Hadd. revert a s.
  induction lines as [|line lines IH]; intros a s; simpl.
  - apply preserves_ret.
  - apply preserves_bind; [apply Hadd|]. intros []; apply IH.
Qed.

End TableInvariant.

(** ** Handlers and the table *)

Section HandlersTable.

Context (int : pystr -> option Z) (command : pystr -> Message -> bool)
  (has_answer : bool).

(** A property of the table that the three writing methods keep. *)
Context (J : table -> Prop).
Context (Hadd : forall u l w, preserves J (Storage.add_word u l w)).
Context (Hremove : forall u l w, preserves J (Storage.remove_word u l w)).
Context (Hclear : forall u l, preserves J (Storage.clear_list u l)).

Local Ltac reads :=
  apply preserves_read_only;
  first [ apply read_only_get_words | apply read_only_text_main
        | apply read_only_text_edit | apply read_only_roll ].

Local Ltac handler :=
  repeat preserves_step;
  first [ reads | apply Hadd | apply Hremove | apply Hclear
        | apply add_lines_preserves, Hadd ].

Lemma cmd_start_db m : preserves (fun e => J (db e)) (cmd_start m).
Proof. unfold cmd_start. handler. Qed.

Lemma cmd_menu_db m : preserves (fun e => J (db e)) (cmd_menu m).
Proof. unfold cmd_menu. handler. Qed.

Lemma cb_back_db c : preserves (fun e => J (db e)) (cb_back c).
Proof. unfold cb_back. handler. Qed.

Lemma cb_edit_db c : preserves (fun e => J (db e)) (cb_edit c).
Proof. unfold cb_edit. handler. Qed.

Lemma cb_roll_db ra rb c : preserves (fun e => J (db e)) (cb_roll ra rb c).
Proof. unfold cb_roll. handler. Qed.

Lemma cb_add_db c : preserves (fun e => J (db e)) (cb_add c).
Proof. unfold cb_add. repeat preserves_step. Qed.

Lemma msg_add_db m : preserves (fun e => J (db e)) (msg_add m).
Proof. unfold msg_add. handler. Qed.

Lemma cb_remove_show_list_db c :
  preserves (fun e => J (db e)) (cb_remove_show_list c).
Proof. unfold cb_remove_show_list. handler. Qed.

Lemma cb_remove_back_db c : preserves (fun e => J (db e)) (cb_remove_back c).
Proof. unfold cb_remove_back. handler. Qed.

Lemma cb_do_remove_db c : preserves (fun e => J (db e)) (cb_do_remove int has_answer c).
Proof. unfold cb_do_remove. handler. Qed.

Lemma cb_clear_db c : preserves (fun e => J (db e)) (cb_clear c).
Proof. unfold cb_clear. handler. Qed.

Lemma route_db ra rb upd st h :
  route int command has_answer ra rb upd st = Some h -> preserves (fun e => J (db e)) h.
Proof.
  unfold route. intros Hr.
  destruct upd as [m|c];
    repeat match type of Hr with
           | (if ?b then _ else _) = _ => destruct b
           end;
    try discriminate; injection Hr as <-;
    auto using cmd_start_db, cmd_menu_db, cb_back_db, cb_edit_db, cb_roll_db,
      cb_add_db, msg_add_db, cb_remove_show_list_db, cb_remove_back_db,
      cb_do_remove_db, cb_clear_db.
Qed.

Lemma feed_update_db ra rb upd w :
  J (w_db w) -> J (w_db (feed_update int command has_answer ra rb upd w).2).
Proof.
  intros Hw. unfold feed_update.
  destruct (route _ _ _ _ _ _ _) as [h|] eqn:Hr; [|done].
  pose proof (route_db _ _ _ _ _ Hr
                (Env (w_db w) (context_of w (key_of upd)) []) Hw) as Hh.
  by destruct (h _) as [r e].
Qed.

End HandlersTable.

(** ** Handlers and the session *)

Section HandlersState.

Context (int : pystr -> option Z) (command : pystr -> Message -> bool)
  (has_answer : bool).

Lemma text_edit_eq u l t : text_edit u l t = (Ok (edit_view u l t), t).
Proof. reflexivity. Qed.

Lemma add_lines_eq u l lines a s t :
  add_lines u l lines a s t =
  let '(added, skipped, t') := tally u l lines t in
  (Ok (a + added, s + skipped)%nat, t').
Proof.
  revert a s t. induction lines as [|line lines IH]; intros a s t; simpl.
  - unfold ret. by rewrite !Nat.add_0_r.
  - unfold bind. rewrite add_word_eq.
    repeat case_decide; rewrite IH;
      destruct (tally u l lines _) as [[added skipped] t'];
      do 3 f_equal; lia.
Qed.

(** The handlers that leave the context alone. *)
Local Ltac keeps := repeat preserves_step.

Lemma cb_roll_state K ra rb c :
  preserves (fun e => K (state e)) (cb_roll ra rb c).
Proof. unfold cb_roll. keeps. Qed.

Lemma cb_remove_show_list_state K c :
  preserves (fun e => K (state e)) (cb_remove_show_list c).
Proof. unfold cb_remove_show_list. keeps. Qed.

Lemma cb_remove_back_state K c :
  preserves (fun e => K (state e)) (cb_remove_back c).
Proof. unfold cb_remove_back. keeps. Qed.

Lemma cb_do_remove_state K c :
  preserves (fun e => K (state e)) (cb_do_remove int has_answer c).
Proof. unfold cb_do_remove. keeps. Qed.

Lemma cb_clear_state K c :
  preserves (fun e => K (state e)) (cb_clear c).
Proof. unfold cb_clear. keeps. Qed.

(** The handlers that start with [state.clear()]. *)
Lemma after_state_clear {A} (rest : Prog env A) e :
  preserves (fun e => state e = idle) rest ->
  state ((state_clear ;; rest) e).2 = idle.
Proof. intros Hrest. unfold bind, state_clear. by apply Hrest. Qed.

Lemma cmd_start_state m e : state (cmd_start m e).2 = idle.
Proof. apply after_state_clear. keeps. Qed.

Lemma cmd_menu_state m e : state (cmd_menu m e).2 = idle.
Proof. apply after_state_clear. keeps. Qed.

Lemma cb_back_state c e : state (cb_back c e).2 = idle.
Proof. apply after_state_clear. keeps. Qed.

Lemma cb_edit_state c e : state (cb_edit c e).2 = idle.
Proof. apply after_state_clear. keeps. Qed.

(** [cb_add] and [msg_add], as equations. *)
Lemma cb_add_eq c e :
  cb_add c e =
  match split colon 1 (cb_data c) !! 1%nat with
  | Some l =>
      let session :=
        Context (Some waiting_add) (FsmData (Some l) (Some (cb_message_id c))) in
      if cb_accessible c then
        (Ok tt,
         Env (db e) session
             (sent e ++ [callback_answer;
                         edit_text (cb_chat c) (cb_message_id c)
                           (AddPromptText l) kb_cancel]))
      else (Raise AttributeError, Env (db e) session (sent e ++ [callback_answer]))
  | None => (Raise IndexError, Env (db e) (state e) (sent e ++ [callback_answer]))
  end.
Proof.
  unfold cb_add, bind, item, getattr_edit_text. simpl.
  destruct (split colon 1 (cb_data c) !! 1%nat); simpl; [|done].
  destruct (cb_accessible c); [|done].
  unfold send. simpl. by rewrite <- app_assoc.
Qed.

(** The session [cb_add] opens, whether the message pressed is accessible
    or not. *)
Lemma cb_add_after c e l :
  split colon 1 (cb_data c) !! 1%nat = Some l ->
  db (cb_add c e).2 = db e
  /\ state (cb_add c e).2
     = Context (Some waiting_add) (FsmData (Some l) (Some (cb_message_id c))).
Proof. intros Hl. rewrite cb_add_eq, Hl. by destruct (cb_accessible c). Qed.

Lemma msg_add_eq m e l anchor raw_text :
  data_list_name (ctx_data (state e)) = Some l ->
  data_menu_message_id (ctx_data (state e)) = Some anchor ->
  msg_text m = Some raw_text ->
  msg_add m e =
  let '(added, skipped, t') :=
    tally (msg_from_user m) l (surviving_lines raw_text) (db e) in
  (Ok tt,
   Env t' idle
       (sent e ++ [message_delete (msg_chat m) (msg_message_id m);
                   edit_text (msg_chat m) anchor
                     (add_suffix (edit_view (msg_from_user m) l t')
                                 (AddedSkipped added skipped))
                     (kb_edit l)])).
Proof.
  intros Hl Hm Ht. unfold msg_add, bind, state_get_data. simpl.
  rewrite Hl, Hm, Ht. simpl. unfold storage at 1. simpl.
  fold (surviving_lines raw_text). rewrite add_lines_eq.
  destruct (tally _ _ _ _) as [[added skipped] t']. simpl.
  unfold send. simpl. by rewrite <- app_assoc.
Qed.

Lemma msg_add_no_text m e :
  msg_text m = None -> (msg_add m e).2 = e.
Proof.
  intros Ht. unfold msg_add, bind, state_get_data. simpl. rewrite Ht.
  destruct e as [t [st [[l|] [a|]]] out]; reflexivity.
Qed.

End HandlersState.

(** ** The states the bot reaches *)

Section World.

Context (int : pystr -> option Z) (command : pystr -> Message -> bool)
  (has_answer : bool).

Lemma context_of_insert (t : table) (fsm : gmap (Z * Z) FSMContext)
  (k : Z * Z) (c : FSMContext) (k' : Z * Z) :
  context_of (World t (<[k := c]> fsm)) k' =
  if decide (k = k') then c else context_of (World t fsm) k'.
Proof.
  unfold context_of. simpl. destruct (decide (k = k')) as [->|Hne].
  - by rewrite lookup_insert_eq.
  - by rewrite lookup_insert_ne.
Qed.

(** What an update does to the context of its chat and user: the handler's
    doing. *)
Lemma feed_update_context ra rb upd w :
  context_of (feed_update int command has_answer ra rb upd w).2 (key_of upd) =
  match route int command has_answer ra rb upd
          (ctx_state (context_of w (key_of upd))) with
  | Some h =>
      state (h (Env (w_db w) (context_of w (key_of upd)) [])).2
  | None => context_of w (key_of upd)
  end.
Proof.
  unfold feed_update. destruct (route _ _ _ _ _ _ _) as [h|]; [|done].
  destruct (h _) as [r e]. simpl. rewrite context_of_insert.
  by rewrite decide_True.
Qed.

(** No other context changes. *)
Lemma feed_update_context_other ra rb upd w k :
  k <> key_of upd ->
  context_of (feed_update int command has_answer ra rb upd w).2 k
  = context_of w k.
Proof.
  intros Hk. unfold feed_update. destruct (route _ _ _ _ _ _ _) as [h|]; [|done].
  destruct (h _) as [r e]. simpl. rewrite context_of_insert.
  by rewrite decide_False.
Qed.

Lemma msg_add_state m e :
  state (msg_add m e).2 = idle \/ (msg_add m e).2 = e.
Proof.
  destruct (msg_text m) as [raw|] eqn:Ht; [|right; by apply msg_add_no_text].
  destruct (data_list_name (ctx_data (state e))) as [l|] eqn:Hl.
  - destruct (data_menu_message_id (ctx_data (state e))) as [a|] eqn:Ha.
    + left. rewrite (msg_add_eq m e l a raw) by done.
      by destruct (tally _ _ _ _) as [[??] ?].
    + right. unfold msg_add, bind, state_get_data. simpl. by rewrite Hl, Ha.
  - right. unfold msg_add, bind, state_get_data. simpl. by rewrite Hl.
Qed.

Lemma session_ok_idle : session_ok idle.
Proof. by intros ?. Qed.

Lemma route_session_ok ra rb upd st h e :
  route int command has_answer ra rb upd st = Some h ->
  session_ok (state e) -> session_ok (state (h e).2).
Proof.
  unfold route. intros Hr Hok.
  destruct upd as [m|c];
    repeat match type of Hr with
           | (if ?b then _ else _) = _ => destruct b
           end;
    try discriminate; injection Hr as <-.
  - rewrite cmd_start_state. apply session_ok_idle.
  - rewrite cmd_menu_state. apply session_ok_idle.
  - destruct (msg_add_state m e) as [-> | ->]; [apply session_ok_idle|done].
  - rewrite cb_back_state. apply session_ok_idle.
  - rewrite cb_edit_state. apply session_ok_idle.
  - by apply (cb_roll_state session_ok).
  - rewrite cb_add_eq. destruct (_ !! _); [|done].
    destruct (cb_accessible c); intros _; simpl; eauto.
  - by apply (cb_remove_show_list_state session_ok).
  - by apply (cb_remove_back_state session_ok).
  - by apply (cb_do_remove_state int has_answer session_ok).
  - by apply (cb_clear_state session_ok).
Qed.

Lemma feed_update_world_ok ra rb upd w :
  world_ok w -> world_ok (feed_update int command has_answer ra rb upd w).2.
Proof.
  intros [Ht Hs]. split.
  - apply feed_update_db;
      auto using add_word_table_ok, remove_word_table_ok, clear_list_table_ok.
  - intros k. destruct (decide (k = key_of upd)) as [->|Hne].
    + rewrite feed_update_context.
      destruct (route _ _ _ _ _ _ _) as [h|] eqn:Hr; [|done].
      apply (route_session_ok _ _ _ _ _ _ Hr). apply Hs.
    + by rewrite feed_update_context_other.
Qed.

Lemma initial_world_ok : world_ok initial.
Proof.
  split.
  - split; [apply NoDup_nil_2|]. by intros r Hr%elem_of_nil.
  - intros u. apply session_ok_idle.
Qed.

Lemma reachable_world_ok w : reachable int command has_answer w -> world_ok w.
Proof.
  induction 1; [apply initial_world_ok|by apply feed_update_world_ok].
Qed.

End World.

(** ** More on text and on the ordered view *)

Section MoreText.

Lemma str_le_lexicographic a b : str_le a b <-> lexicographic a b.
Proof.
  unfold str_le. revert b. induction a as [|x a IH]; intros b; simpl.
  - split; [|done]. intros _. left. by exists b.
  - destruct b as [|y b].
    + split; [done|]. intros [[b' Hb]|(p & x' & y' & a' & b' & _ & Hb & _)].
      * done.
      * by destruct p.
    + destruct (N.ltb_spec x y) as [Hlt|Hge].
      * split; [|done]. intros _. right. by exists [], x, y, a, b.
      * destruct (N.eqb_spec x y) as [->|Hne].
        -- rewrite IH. split.
           ++ intros [[b' ->]|(p & x' & y' & a' & b' & -> & -> & Hxy)].
              ** left. by exists b'.
              ** right. by exists (y :: p), x', y', a', b'.
           ++ intros [[b' Hb]|(p & x' & y' & a' & b' & Ha & Hb & Hxy)].
              ** left. exists b'. by simplify_eq/=.
              ** destruct p as [|z p]; simplify_eq/=; [lia|].
                 right. by exists p, x', y', a', b'.
        -- split; [done|].
           intros [[b' Hb]|(p & x' & y' & a' & b' & Ha & Hb & Hxy)].
           ++ by simplify_eq/=.
           ++ destruct p as [|z p]; simplify_eq/=. lia.
Qed.

Lemma utf8_char_lt x y :
  x < y -> y < 0x110000 -> differs_lt (utf8_char x) (utf8_char y) = true.
Proof.
  intros Hxy Hy. unfold utf8_char.
  pose proof (N.div_mod x 64 ltac:(lia)) as Hx1.
  pose proof (N.mod_lt x 64 ltac:(lia)) as Hx1'.
  pose proof (N.div_mod (x / 64) 64 ltac:(lia)) as Hx2.
  pose proof (N.mod_lt (x / 64) 64 ltac:(lia)) as Hx2'.
  pose proof (N.div_mod (x / 64 / 64) 64 ltac:(lia)) as Hx3.
  pose proof (N.mod_lt (x / 64 / 64) 64 ltac:(lia)) as Hx3'.
  pose proof (N.div_mod y 64 ltac:(lia)) as Hy1.
  pose proof (N.mod_lt y 64 ltac:(lia)) as Hy1'.
  pose proof (N.div_mod (y / 64) 64 ltac:(lia)) as Hy2.
  pose proof (N.mod_lt (y / 64) 64 ltac:(lia)) as Hy2'.
  pose proof (N.div_mod (y / 64 / 64) 64 ltac:(lia)) as Hy3.
  pose proof (N.mod_lt (y / 64 / 64) 64 ltac:(lia)) as Hy3'.
  generalize dependent (x mod 64). generalize dependent (x / 64 mod 64).
  generalize dependent (x / 64 / 64 mod 64).
  generalize dependent (x / 64 / 64 / 64).
  generalize dependent (x / 64 / 64). generalize dependent (x / 64).
  generalize dependent (y mod 64). generalize dependent (y / 64 mod 64).
  generalize dependent (y / 64 / 64 mod 64).
  generalize dependent (y / 64 / 64 / 64).
  generalize dependent (y / 64 / 64). generalize dependent (y / 64).
  intros.
  repeat (match goal with
          | |- context [?a <? ?b] => destruct (N.ltb_spec a b)
          | |- context [?a =? ?b] => destruct (N.eqb_spec a b)
          end; cbn [differs_lt]; try done; try lia).
Qed.

Lemma differs_lt_app l1 l2 A B :
  differs_lt l1 l2 = true ->
  str_leb (l1 ++ A) (l2 ++ B) = true /\ str_leb (l2 ++ B) (l1 ++ A) = false.
Proof.
  revert l2. induction l1 as [|u r1 IH]; intros [|v r2]; simpl; try done.
  destruct (N.ltb_spec u v), (N.ltb_spec v u), (N.eqb_spec u v),
    (N.eqb_spec v u); try done; try lia.
  apply IH.
Qed.

Lemma str_leb_app_same e A B : str_leb (e ++ A) (e ++ B) = str_leb A B.
Proof.
  induction e as [|u e IH]; simpl; [done|].
  by rewrite N.ltb_irrefl, N.eqb_refl.
Qed.

Lemma utf8_char_nonempty c : exists u r, utf8_char c = u :: r.
Proof. unfold utf8_char. repeat case_match; eauto. Qed.

(** Comparing the encodings byte by byte is comparing the code points. *)
Lemma utf8_order a b :
  Forall (fun c => c < 0x110000) a -> Forall (fun c => c < 0x110000) b ->
  str_leb (utf8 a) (utf8 b) = str_leb a b.
Proof.
  intros Ha. revert b. induction Ha as [|x a Hx Ha IH]; intros b Hb.
  - done.
  - destruct Hb as [|y b Hy Hb]; unfold utf8; simpl.
    + by destruct (utf8_char_nonempty x) as (u & r & ->).
    + fold (utf8 a). fold (utf8 b).
      destruct (N.ltb_spec x y) as [Hlt|Hge].
      * by apply differs_lt_app, utf8_char_lt.
      * destruct (N.eqb_spec x y) as [->|Hne].
        -- rewrite str_leb_app_same. by apply IH.
        -- apply differs_lt_app, utf8_char_lt; [lia|done].
Qed.

Lemma lstrip_decompose s :
  exists pre, s = pre ++ lstrip s /\ forallb isspace pre = true.
Proof.
  induction s as [|c s (pre & Hs & Hpre)]; simpl.
  - by exists [].
  - destruct (isspace c) eqn:Hc.
    + exists (c :: pre). simpl. rewrite Hc, Hpre. split; [by f_equal|done].
    + by exists [].
Qed.

Lemma rstrip_decompose s :
  exists post, s = rstrip s ++ post /\ forallb isspace post = true.
Proof.
  unfold rstrip. destruct (lstrip_decompose (rev s)) as (pre & Hs & Hpre).
  exists (rev pre). split.
  - rewrite <- rev_app_distr, <- Hs. by rewrite rev_involutive.
  - rewrite forallb_forall in Hpre |- *. intros c Hc. apply Hpre.
    by apply in_rev.
Qed.

(** [strip] removes a run of whitespace at each end, and nothing else. *)
Lemma strip_decompose s :
  exists pre post,
    s = pre ++ strip s ++ post
    /\ forallb isspace pre = true /\ forallb isspace post = true.
Proof.
  destruct (lstrip_decompose s) as (pre & Hs & Hpre).
  destruct (rstrip_decompose (lstrip s)) as (post & Hs' & Hpost).
  exists pre, post. unfold strip. by rewrite <- Hs', <- Hs.
Qed.

Lemma strip_head s c s' : strip s = c :: s' -> isspace c = false.
Proof.
  unfold strip. destruct (lstrip_head s) as [->|(d & r & -> & Hd)]; [done|].
  rewrite rstrip_cons by done. by intros [= <- _].
Qed.

Lemma strip_last s c s' : strip s = s' ++ [c] -> isspace c = false.
Proof.
  unfold strip, rstrip. intros H.
  apply (f_equal (@rev N)) in H. rewrite rev_involutive, rev_unit in H.
  destruct (lstrip_head (rev (lstrip s))) as [E|(d & r & E & Hd)];
    rewrite E in H; [done|]. by injection H as -> _.
Qed.

End MoreText.

Section MoreTable.

Implicit Types (t : table) (u : Z) (l w : pystr) (r : row).

Lemma select_words_snoc_other u l t r :
  ~ (user_id r = u /\ list_name r = l) ->
  select_words u l (t ++ [r]) = select_words u l t.
Proof.
  intros Hr. unfold select_words.
  by rewrite filter_app, (filter_cons_False _ r []), app_nil_r.
Qed.

Lemma length_select_words u l t :
  length (select_words u l t)
  = length (filter (fun r => user_id r = u /\ list_name r = l) t).
Proof.
  rewrite select_words_Permutation. apply length_fmap.
Qed.

Lemma length_select_words_snoc u l t w :
  length (select_words u l (t ++ [Row u l w]))
  = S (length (select_words u l t)).
Proof.
  rewrite !length_select_words, filter_app.
  rewrite (filter_cons_True _ (Row u l w) []) by done.
  rewrite length_app. simpl. lia.
Qed.

Lemma filter_eq_NoDup (xs : list pystr) x :
  NoDup xs -> x ∈ xs -> length (filter (fun y => y = x) xs) = 1%nat.
Proof.
  induction 1 as [|y xs Hy Hxs IH]; [by intros ?%elem_of_nil|].
  intros [->|Hx]%elem_of_cons.
  - rewrite filter_cons_True by done. simpl. f_equal.
    rewrite filter_none; [done|]. by intros z Hz ->.
  - rewrite filter_cons_False by (by intros ->). by apply IH.
Qed.

Lemma StronglySorted_weaken {A} (R1 R2 : relation A) (xs : list A) :
  (forall a b, R1 a b -> R2 a b) ->
  StronglySorted R1 xs -> StronglySorted R2 xs.
Proof.
  intros HR. induction 1 as [|x xs Hs IH Hx]; constructor; [done|].
  eapply Forall_impl; [done|]. by intros y ?%HR.
Qed.

Lemma sorted_strict (xs : list pystr) :
  StronglySorted str_le xs -> NoDup xs ->
  StronglySorted (fun a b => str_le a b /\ a <> b) xs.
Proof.
  induction 1 as [|x xs Hs IH Hx]; [constructor|].
  intros [Hnx Hnd]%NoDup_cons. constructor; [by apply IH|].
  rewrite Forall_forall in Hx |- *. intros y Hy. split; [by apply Hx|].
  by intros ->.
Qed.

Lemma add_word_unique u l w : preserves unique (Storage.add_word u l w).
Proof.
  intros t Hu. rewrite add_word_eq. repeat case_decide; try done. simpl.
  apply NoDup_app. split_and!; [done| |apply NoDup_singleton].
  by intros r Hr ->%list_elem_of_singleton.
Qed.

Lemma remove_word_unique u l w : preserves unique (Storage.remove_word u l w).
Proof. intros t Hu. rewrite remove_word_eq. by apply NoDup_filter. Qed.

Lemma clear_list_unique u l : preserves unique (Storage.clear_list u l).
Proof. intros t Hu. rewrite clear_list_eq. by apply NoDup_filter. Qed.

End MoreTable.

(** ** Bulk add, removal by position and the session *)

Section Controller.

Implicit Types (t : table) (u : Z) (l w : pystr).

Lemma position_None words i :
  position words i = None <-> (i < 0 \/ i >= Z.of_nat (length words))%Z.
Proof.
  unfold position. destruct (decide (0 <= i)%Z) as [Hi|Hi].
  - rewrite lookup_ge_None. lia.
  - split; [lia|done].
Qed.

Lemma surviving_lines_trimmed raw line :
  line ∈ surviving_lines raw -> strip line = line /\ line <> [].
Proof.
  unfold surviving_lines. intros [Hne Hin]%list_elem_of_filter.
  apply list_elem_of_fmap in Hin as (x & -> & _).
  split; [apply strip_idemp|done].
Qed.

Lemma length_surviving_lines raw :
  length (surviving_lines raw)
  = length (filter (fun line => strip line <> []) (splitlines raw)).
Proof.
  unfold surviving_lines. by rewrite filter_fmap, length_fmap.
Qed.

Lemma tally_counts u l lines t :
  let '(added, skipped, _) := tally u l lines t in
  (added + skipped = length lines)%nat.
Proof.
  revert t. induction lines as [|line lines IH]; intros t; simpl; [done|].
  destruct (Storage.add_word u l line t) as [ok t1].
  specialize (IH t1). destruct (tally u l lines t1) as [[a s] t2].
  destruct ok as [[]|]; lia.
Qed.

Lemma tally_growth u l lines t :
  let '(added, _, t') := tally u l lines t in
  length (select_words u l t') = (length (select_words u l t) + added)%nat.
Proof.
  revert t. induction lines as [|line lines IH]; intros t; simpl; [lia|].
  rewrite add_word_eq.
  repeat case_decide;
    match goal with
    | |- context [tally u l lines ?t1] =>
        specialize (IH t1); destruct (tally u l lines t1) as [[a s] t2]
    end; try done.
  rewrite IH, length_select_words_snoc. lia.
Qed.

Lemma tally_elem_of u l lines t :
  (forall line, line ∈ lines -> strip line = line /\ line <> []) ->
  let '(_, _, t') := tally u l lines t in
  forall r, r ∈ t' <-> r ∈ t \/ exists line, line ∈ lines /\ r = Row u l line.
Proof.
  revert t. induction lines as [|line lines IH]; intros t Hlines; simpl.
  - intros r. split; [by left|]. intros [?|(x & []%elem_of_nil & _)]; done.
  - destruct (Hlines line) as [Hs Hne]; [left|].
    rewrite add_word_eq, Hs, decide_False by done.
    assert (forall x, x ∈ lines -> strip x = x /\ x <> []) as Hrest
      by (intros x Hx; apply Hlines; by right).
    case_decide as Hin;
      match goal with
      | |- context [tally u l lines ?t1] =>
          specialize (IH t1 Hrest); destruct (tally u l lines t1) as [[a s] t2]
      end; intros r; rewrite IH.
    + split.
      * intros [?|(x & Hx & ->)]; [by left|]. right. exists x. split; [by right|done].
      * intros [?|(x & [->|Hx]%elem_of_cons & ->)]; [by left|by left|].
        right. by exists x.
    + rewrite elem_of_app, list_elem_of_singleton. split.
      * intros [[?| ->]|(x & Hx & ->)]; [by left| |].
        -- right. exists line. split; [left|done].
        -- right. exists x. split; [by right|done].
      * intros [?|(x & [->|Hx]%elem_of_cons & ->)]; [by left; left|by left; right|].
        right. by exists x.
Qed.

Lemma tally_other u l lines t u' l' :
  ~ (u' = u /\ l' = l) ->
  let '(_, _, t') := tally u l lines t in
  select_words u' l' t' = select_words u' l' t.
Proof.
  intros Hne. revert t.
  induction lines as [|line lines IH]; intros t; simpl; [done|].
  rewrite add_word_eq.
  repeat case_decide;
    match goal with
    | |- context [tally u l lines ?t1] =>
        specialize (IH t1); destruct (tally u l lines t1) as [[a s] t2]
    end; try done.
  rewrite IH. apply select_words_snoc_other. simpl.
  intros [<- <-]. by apply Hne.
Qed.

Lemma split_from_length sep n cur s :
  (1 <= length (split_from sep n cur s) <= S n)%nat.
Proof.
  revert n cur. induction s as [|c s IH]; intros n cur; simpl; [lia|].
  destruct n as [|n]; simpl; [lia|].
  destruct (c =? sep).
  - simpl. specialize (IH n []). lia.
  - specialize (IH (S n) (c :: cur)). lia.
Qed.

Lemma startswith_spec p s :
  startswith p s = true <-> exists rest, s = p ++ rest.
Proof.
  revert s. induction p as [|x p IH]; intros s; simpl.
  - split; [|done]. intros _. by exists s.
  - destruct s as [|c s].
    + split; [done|]. by intros [rest ?].
    + rewrite andb_true_iff, N.eqb_eq, IH. split.
      * intros [-> [rest ->]]. by exists rest.
      * intros [rest [= -> ->]]. split; [done|]. by exists rest.
Qed.

Lemma filter_ne_delete (xs : list pystr) i x :
  NoDup xs -> xs !! i = Some x ->
  filter (fun y => y <> x) xs = delete i xs.
Proof.
  intros Hnd. revert i. induction Hnd as [|y xs Hy Hnd IH]; intros i; [done|].
  destruct i as [|i]; simpl.
  - intros [= ->]. rewrite filter_cons_False by (by intros H; apply H).
    apply filter_all. by intros z Hz ->.
  - intros Hx. rewrite filter_cons_True.
    + f_equal. by apply IH.
    + intros ->. apply Hy. by eapply list_elem_of_lookup_2.
Qed.

(** Removing the word at a position of the view deletes that row, and
    the view loses that position. *)
Lemma remove_word_listed u l word t i :
  table_ok t -> select_words u l t !! i = Some word ->
  Storage.remove_word u l word t
  = (Ok true, filter (fun r => r <> Row u l word) t)
  /\ select_words u l (filter (fun r => r <> Row u l word) t)
     = delete i (select_words u l t).
Proof.
  intros [Hu Htr] Hword.
  assert (Row u l word ∈ t) as Hrow.
  { apply elem_of_select_words. by eapply list_elem_of_lookup_2. }
  destruct (Htr _ Hrow) as [Hstrip _]. simpl in Hstrip. split.
  - rewrite remove_word_eq, Hstrip.
    by rewrite (bool_decide_eq_true_2 (_ ∈ _)) by done.
  - rewrite (select_words_filter _ (fun x => x <> word)).
    + apply filter_ne_delete; [by apply select_words_NoDup|done].
    + intros x. split; [by intros ? ->|by intros ? [= ->]].
Qed.

End Controller.

Section RemoveByPosition.

Context (int : pystr -> option Z) (has_answer : bool).

Local Arguments Storage.get_words : simpl never.
Local Arguments Storage.remove_word : simpl never.
Local Arguments text_edit : simpl never.
Local Arguments select_words : simpl never.
Local Arguments kb_edit : simpl never.

Local Ltac prog :=
  cbn; unfold bind, ret, raise, send, storage, getattr_edit_text,
         getattr_answer; cbn.

(** [cb_do_remove], as an equation: what it answers with, and what is left
    of that when the message pressed is inaccessible. *)
Lemma cb_do_remove_eq c e :
  cb_do_remove int has_answer c e =
  let u := cb_from_user c in
  let raised t :=
    (Raise AttributeError, Env t (state e) (sent e ++ [callback_answer])) in
  let answer v :=
    if cb_accessible c || has_answer then
      (Ok tt,
       Env (db e) (state e)
           (sent e ++ [callback_answer; message_answer (cb_chat c) v None]))
    else raised (db e) in
  let edit v l t :=
    if cb_accessible c then
      (Ok tt,
       Env t (state e)
           (sent e ++ [callback_answer;
                       edit_text (cb_chat c) (cb_message_id c) v (kb_edit l)]))
    else raised t in
  match split colon 2 (cb_data c) with
  | [_; l; digits] =>
      match int digits with
      | None => answer BadIndexText
      | Some i =>
          match position (select_words u l (db e)) i with
          | None => edit (edit_view u l (db e)) l (db e)
          | Some word =>
              let t' := after (Storage.remove_word u l word) (db e) in
              let ok := value (Storage.remove_word u l word) (db e) in
              edit (add_suffix (edit_view u l t')
                      match ok with Ok true => Removed | _ => NotFound end)
                   l t'
          end
      end
  | _ => answer BadDataText
  end.
Proof.
  pose proof (split_from_length colon 2 [] (cb_data c)) as Hlen.
  fold (split colon 2 (cb_data c)) in Hlen.
  unfold cb_do_remove.
  destruct (split colon 2 (cb_data c)) as [|p0 [|l [|digits [|extra rest]]]];
    simpl in Hlen; try lia; prog;
    try (rewrite decide_True by lia; prog;
         destruct (cb_accessible c || has_answer); prog;
         by rewrite <- ?app_assoc).
  rewrite decide_False by lia. prog.
  destruct (int digits) as [i|]; prog;
    [|destruct (cb_accessible c || has_answer); prog;
      by rewrite <- ?app_assoc].
  rewrite get_words_eq. prog. unfold position.
  destruct (decide (i < 0 \/ i >= _)%Z) as [Hout|Hin]; prog.
  - assert ((if decide (0 <= i)%Z
             then select_words (cb_from_user c) l (db e) !! Z.to_nat i
             else None) = None) as ->.
    { case_decide; [|done]. apply lookup_ge_None. lia. }
    destruct (cb_accessible c); prog; [|done].
    rewrite text_edit_eq. prog. by rewrite <- app_assoc.
  - rewrite decide_True by lia. unfold item.
    destruct (lookup_lt_is_Some_2 (select_words (cb_from_user c) l (db e))
                (Z.to_nat i)) as [word Hword]; [lia|].
    rewrite Hword. prog. unfold after, value.
    destruct (Storage.remove_word (cb_from_user c) l word (db e))
      as [[[]|] t'] eqn:Hrm; rewrite remove_word_eq in Hrm; try done;
      prog; destruct (cb_accessible c); prog; try done;
      rewrite text_edit_eq; prog; by rewrite <- app_assoc.
Qed.

(** The table and the context after [cb_do_remove] are the same for an
    accessible and for an inaccessible message. *)
Lemma cb_do_remove_after c e :
  state (after (cb_do_remove int has_answer c) e) = state e
  /\ db (after (cb_do_remove int has_answer c) e) =
     match split colon 2 (cb_data c) with
     | [_; l; digits] =>
         match int digits with
         | None => db e
         | Some i =>
             match position (select_words (cb_from_user c) l (db e)) i with
             | None => db e
             | Some word =>
                 after (Storage.remove_word (cb_from_user c) l word) (db e)
             end
         end
     | _ => db e
     end.
Proof.
  unfold after at 1 2. rewrite cb_do_remove_eq. cbn zeta.
  repeat match goal with
         | |- context [match ?x with _ => _ end] => destruct x
         end; done.
Qed.

End RemoveByPosition.

Section Routes.

Context (int : pystr -> option Z) (command : pystr -> Message -> bool)
  (has_answer : bool).

Lemma route_add ra rb c st l :
  cb_data c = py "add:" ++ l ->
  route int command has_answer ra rb (callback_update c) st = Some (cb_add c).
Proof. intros Hc. unfold route. by rewrite Hc. Qed.

Lemma split_add l : split colon 1 (py "add:" ++ l) !! 1%nat = Some l.
Proof. by destruct l. Qed.

Lemma route_msg_add ra rb m :
  command (py "start") m = false -> command (py "menu") m = false ->
  route int command has_answer ra rb (message_update m) (Some waiting_add)
  = Some (msg_add m).
Proof. intros Hs Hm. unfold route. by rewrite Hs, Hm. Qed.

Lemma feed_update_eq ra rb upd w h :
  route int command has_answer ra rb upd (ctx_state (context_of w (key_of upd)))
  = Some h ->
  feed_update int command has_answer ra rb upd w =
  (handled (h (Env (w_db w) (context_of w (key_of upd)) [])).1
           (sent (h (Env (w_db w) (context_of w (key_of upd)) [])).2),
   World (db (h (Env (w_db w) (context_of w (key_of upd)) [])).2)
         (<[key_of upd := state (h (Env (w_db w)
                                         (context_of w (key_of upd)) [])).2]>
            (w_fsm w))).
Proof.
  intros Hr. unfold feed_update. rewrite Hr. by destruct (h _).
Qed.

(** Pressing "add" for list [l] opens that session, anchored at the
    message pressed, in the chat of that message. *)
Lemma feed_update_add ra rb c w l :
  cb_data c = py "add:" ++ l ->
  w_db (feed_update int command has_answer ra rb (callback_update c) w).2
  = w_db w
  /\ context_of (feed_update int command has_answer ra rb (callback_update c) w).2
       (cb_chat c, cb_from_user c)
     = Context (Some waiting_add) (FsmData (Some l) (Some (cb_message_id c))).
Proof.
  intros Hc.
  rewrite (feed_update_eq ra rb (callback_update c) w (cb_add c))
    by by apply route_add with l.
  destruct (cb_add_after c
              (Env (w_db w) (context_of w (key_of (callback_update c))) []) l)
    as [Hdb Hst]; [by rewrite Hc, split_add|].
  cbn [fst snd]. split; [done|].
  rewrite context_of_insert, Hst. by rewrite decide_True.
Qed.

End Routes.

Section Roll.

Local Arguments Storage.roll : simpl never.

(** [cb_roll], as an equation. *)
Lemma cb_roll_eq ra rb c e :
  cb_roll ra rb c e =
  match Storage.roll ra rb (cb_from_user c) (db e) with
  | (Ok (a, b), t) =>
      if cb_accessible c then
        (Ok tt,
         Env t (state e)
             (sent e ++ [callback_answer;
                         edit_text (cb_chat c) (cb_message_id c)
                           (if negb (truthy a) || negb (truthy b)
                            then ListEmptyText
                            else RollText (fmt a) (fmt b))
                           kb_main]))
      else (Raise AttributeError, Env t (state e) (sent e ++ [callback_answer]))
  | (Raise x, t) => (Raise x, Env t (state e) (sent e ++ [callback_answer]))
  end.
Proof.
  unfold cb_roll. cbn. unfold bind, send, storage, getattr_edit_text. cbn.
  destruct (Storage.roll ra rb (cb_from_user c) (db e)) as [[[a b]|x] t];
    [|done].
  destruct (negb (truthy a) || negb (truthy b)), (cb_accessible c); cbn;
    by rewrite <- ?app_assoc.
Qed.

End Roll.

(** * The specified properties *)

(** C1. [add_word] files the word under its trimmed text, which is the
    word without the run of whitespace at each end.  It returns
    false and leaves the table as it was when the trimmed text is empty or
    is already listed for that user and list; otherwise it returns true and
    the table gains exactly the row of the trimmed word.  Hence a word and
    its trimmed text are added alike, [" foo "] and ["foo"] are added alike,
    and whichever of the two comes second is refused. *)
Theorem add_word_trims_and_rejects (u : Z) (l w : pystr) (t : table) :
  (exists pre post,
     w = pre ++ strip w ++ post
     /\ forallb isspace pre = true /\ forallb isspace post = true)
  /\ (forall c s, strip w = c :: s \/ strip w = s ++ [c] -> isspace c = false)
  /\ (strip w = [] \/ strip w ∈ select_words u l t ->
      Storage.add_word u l w t = (Ok false, t))
  /\ (strip w <> [] -> strip w ∉ select_words u l t ->
      exists t',
        Storage.add_word u l w t = (Ok true, t')
        /\ (forall r, r ∈ t' <-> r ∈ t \/ r = Row u l (strip w))
        /\ (forall x, x ∈ select_words u l t'
                      <-> x = strip w \/ x ∈ select_words u l t))
  /\ Storage.add_word u l w t = Storage.add_word u l (strip w) t
  /\ Storage.add_word u l (py " foo ") t = Storage.add_word u l (py "foo") t
  /\ value (Storage.add_word u l (py " foo ") ;;
            Storage.add_word u l (py "foo")) t = Ok false
  /\ value (Storage.add_word u l (py "foo") ;;
            Storage.add_word u l (py " foo ")) t = Ok false.
Proof.
  split_and!.
  - apply strip_decompose.
  - intros c s [Hs|Hs]; [by eapply strip_head|by eapply strip_last].
  - rewrite elem_of_select_words, add_word_eq. intros [He|Hin].
    + by rewrite decide_True.
    + destruct (decide (strip w = [])); [done|]. by rewrite decide_True.
  - rewrite elem_of_select_words, add_word_eq. intros Hne Hnew.
    rewrite decide_False, decide_False by done.
    eexists. split; [done|]. split.
    + intros r. rewrite elem_of_app, list_elem_of_singleton. tauto.
    + intros x. rewrite !elem_of_select_words, elem_of_app,
        list_elem_of_singleton. 
      split; [intros [?|[= ->]]|intros [->|?]]; auto.
  - by rewrite !add_word_eq, strip_idemp.
  - by rewrite !add_word_eq.
  - unfold value, bind. rewrite (add_word_eq u l (py " foo ")).
    change (strip (py " foo ")) with (py "foo").
    destruct (decide (py "foo" = [])); [done|].
    destruct (decide (Row u l (py "foo") ∈ t)) as [Hin|Hnew];
      rewrite add_word_eq; change (strip (py "foo")) with (py "foo");
      rewrite decide_False by done.
    + by rewrite decide_True.
    + rewrite decide_True; [done|]. apply elem_of_app. right. left.
  - unfold value, bind. rewrite (add_word_eq u l (py "foo")).
    change (strip (py "foo")) with (py "foo").
    destruct (decide (py "foo" = [])); [done|].
    destruct (decide (Row u l (py "foo") ∈ t)) as [Hin|Hnew];
      rewrite add_word_eq; change (strip (py " foo ")) with (py "foo");
      rewrite decide_False by done.
    + by rewrite decide_True.
    + rewrite decide_True; [done|]. apply elem_of_app. right. left.
Qed.

(** C1 on the empty table: [" foo "] is filed as ["foo"]. *)
Lemma add_word_trims_and_rejects_witness :
  exists t',
    Storage.add_word 1 (py "A") (py " foo ") [] = (Ok true, t')
    /\ (forall r, r ∈ t' <-> r ∈ [] \/ r = Row 1 (py "A") (strip (py " foo ")))
    /\ (forall x, x ∈ select_words 1 (py "A") t'
                  <-> x = strip (py " foo ")
                      \/ x ∈ select_words 1 (py "A") []).
Proof.
  apply (add_word_trims_and_rejects 1 (py "A") (py " foo ") []).
  - vm_compute. discriminate.
  - vm_compute. intros H. inversion H.
Defined.

(** C2. No reachable state holds a row twice.  Each writing method of the
    store keeps the table free of repeated rows, and so does every update
    the router dispatches, bulk add and removal by position among them.
    Adding a word that is not yet listed succeeds, adding it again is
    refused and changes nothing, and the list then holds it exactly once. *)
Theorem rows_stay_unique (int : pystr -> option Z)
  (command : pystr -> Message -> bool) (has_answer : bool) :
  (forall w, reachable int command has_answer w -> unique (w_db w))
  /\ (forall u l x,
        preserves unique (Storage.add_word u l x)
        /\ preserves unique (Storage.remove_word u l x)
        /\ preserves unique (Storage.clear_list u l))
  /\ (forall m c,
        preserves (fun e => unique (db e)) (msg_add m)
        /\ preserves (fun e => unique (db e)) (cb_do_remove int has_answer c)
        /\ preserves (fun e => unique (db e)) (cb_clear c))
  /\ (forall ra rb upd w,
        unique (w_db w) ->
        unique (w_db (feed_update int command has_answer ra rb upd w).2))
  /\ (forall u l x t,
        unique t -> strip x <> [] -> strip x ∉ select_words u l t ->
        exists t1,
          Storage.add_word u l x t = (Ok true, t1)
          /\ Storage.add_word u l x t1 = (Ok false, t1)
          /\ length (filter (fun y => y = strip x) (select_words u l t1))
             = 1%nat).
Proof.
  split_and!.
  - intros w Hw. by apply (reachable_world_ok int command has_answer).
  - intros u l x.
    auto using add_word_unique, remove_word_unique, clear_list_unique.
  - intros m c. split_and!.
    + exact (msg_add_db unique add_word_unique m).
    + exact (cb_do_remove_db int has_answer unique remove_word_unique c).
    + exact (cb_clear_db unique clear_list_unique c).
  - intros ra rb upd w.
    exact (feed_update_db int command has_answer unique add_word_unique
             remove_word_unique clear_list_unique ra rb upd w).
  - intros u l x t Hu Hne Hnew. rewrite elem_of_select_words in Hnew.
    exists (t ++ [Row u l (strip x)]).
    assert (Row u l (strip x) ∈ t ++ [Row u l (strip x)]) as Hin
      by (apply elem_of_app; right; left).
    split_and!.
    + rewrite add_word_eq. by rewrite !decide_False.
    + rewrite add_word_eq. by rewrite decide_False, decide_True.
    + apply filter_eq_NoDup; [|by apply elem_of_select_words].
      pose proof (add_word_unique u l x t Hu) as Hu1.
      rewrite add_word_eq, !decide_False in Hu1 by done.
      by apply select_words_NoDup.
Qed.

(** C2 on the empty list: ["foo"] goes in once. *)
Lemma rows_stay_unique_witness :
  exists t1,
    Storage.add_word 1 (py "A") (py "foo") [] = (Ok true, t1)
    /\ Storage.add_word 1 (py "A") (py "foo") t1 = (Ok false, t1)
    /\ length (filter (fun y => y = strip (py "foo"))
                 (select_words 1 (py "A") t1)) = 1%nat.
Proof.
  apply (rows_stay_unique int_ascii command_exact true).
  - apply NoDup_nil_2.
  - by vm_compute.
  - vm_compute. intros H. inversion H.
Defined.

(** C3. [roll] returns the pair [(None, None)] exactly when list A or
    list B of the user is empty.  Otherwise, whatever numbers the two draws
    produce, it returns a word of list A and a word of list B; and when
    each list holds one word, that pair of words is the result.  On a table
    of trimmed words [cb_roll] shows that pair, or the notice that a list
    is empty when there is none; when the message under the button is
    inaccessible it raises instead of showing it, the table untouched. *)
Theorem roll_pair (ra rb : nat) (u : Z) (t : table) :
  exists x y,
    value (Storage.roll ra rb u) t = Ok (x, y)
    /\ ((x, y) = (None, None)
        <-> select_words u (py "A") t = [] \/ select_words u (py "B") t = [])
    /\ (select_words u (py "A") t <> [] -> select_words u (py "B") t <> [] ->
        exists wa wb,
          x = Some wa /\ y = Some wb
          /\ wa ∈ select_words u (py "A") t
          /\ wb ∈ select_words u (py "B") t)
    /\ (forall wa wb,
          select_words u (py "A") t = [wa] ->
          select_words u (py "B") t = [wb] ->
          x = Some wa /\ y = Some wb)
    /\ (forall (c : CallbackQuery) (e : env),
          cb_from_user c = u -> db e = t -> trimmed t ->
          cb_roll ra rb c e =
          if cb_accessible c then
            (Ok tt,
             Env t (state e)
                 (sent e ++ [callback_answer;
                             edit_text (cb_chat c) (cb_message_id c)
                               match x, y with
                               | Some wa, Some wb => RollText wa wb
                               | _, _ => ListEmptyText
                               end
                               kb_main]))
          else
            (Raise AttributeError,
             Env t (state e) (sent e ++ [callback_answer]))).
Proof.
  unfold value.
  destruct (decide (select_words u (py "A") t = []
                    \/ select_words u (py "B") t = [])) as [He|Hne].
  - exists None, None. rewrite roll_empty by done. split_and!; try done.
    + tauto.
    + intros wa wb Ha Hb. rewrite Ha, Hb in He. by destruct He.
    + intros c e <- <- _. by rewrite cb_roll_eq, roll_empty.
  - destruct (roll_nonempty ra rb u t) as (wa & wb & Hroll & Ha & Hb);
      [tauto..|].
    rewrite Hroll.
    exists (Some wa), (Some wb). split_and!; try done.
    + intros _ _. by exists wa, wb.
    + intros wa' wb' Ea Eb. rewrite Ea in Ha. rewrite Eb in Hb.
      apply list_elem_of_singleton in Ha, Hb. by subst.
    + intros c e <- <- Htr. rewrite cb_roll_eq, Hroll.
      apply elem_of_select_words, Htr in Ha as [_ Ha].
      apply elem_of_select_words, Htr in Hb as [_ Hb]. simpl in Ha, Hb.
      by destruct wa, wb, (cb_accessible c).
Qed.

(** C3 on the scenario of the specification: with "Naruto" alone in list A
    and "Betrayal" alone in list B, every roll returns that pair. *)
Lemma roll_pair_witness :
  value (Storage.roll 5 8 1)
    [Row 1 (py "A") (py "Naruto"); Row 1 (py "B") (py "Betrayal")]
  = Ok (Some (py "Naruto"), Some (py "Betrayal")).
Proof.
  destruct (roll_pair 5 8 1
              [Row 1 (py "A") (py "Naruto"); Row 1 (py "B") (py "Betrayal")])
    as (x & y & -> & _ & _ & Hone & _).
  destruct (Hone (py "Naruto") (py "Betrayal")) as [-> ->];
    [by vm_compute..|done].
Defined.

(** C4. A submitted text is cut into lines, each line is trimmed, and the
    lines that trim to nothing are dropped.  [msg_add] then adds the
    remaining lines in their order, exactly as the tally of the
    specification does, and reports its two counts: every remaining line is
    counted once, as added or as skipped, the list grows by the number
    added, and afterwards it lists what it listed before together with the
    remaining lines.  For the lines x, empty, two blanks, x, y and an empty
    list the counts are 2 added and 1 skipped. *)
Theorem bulk_add_tallies :
  (forall (m : Message) (e : env) (l : pystr) (anchor : Z) (raw : pystr),
      data_list_name (ctx_data (state e)) = Some l ->
      data_menu_message_id (ctx_data (state e)) = Some anchor ->
      msg_text m = Some raw ->
      exists added skipped t',
        tally (msg_from_user m) l (surviving_lines raw) (db e)
        = (added, skipped, t')
        /\ msg_add m e =
           (Ok tt,
            Env t' idle
                (sent e ++ [message_delete (msg_chat m) (msg_message_id m);
                            edit_text (msg_chat m) anchor
                              (add_suffix (edit_view (msg_from_user m) l t')
                                          (AddedSkipped added skipped))
                              (kb_edit l)]))
        /\ (added + skipped
            = length (filter (fun line => strip line <> []) (splitlines raw)))%nat
        /\ length (select_words (msg_from_user m) l t')
           = (length (select_words (msg_from_user m) l (db e)) + added)%nat
        /\ (forall w, w ∈ select_words (msg_from_user m) l t'
                      <-> w ∈ select_words (msg_from_user m) l (db e)
                          \/ w ∈ surviving_lines raw))
  /\ splitlines (py "x" ++ [0x0A; 0x0A; 0x20; 0x20; 0x0A] ++ py "x"
                 ++ [0x0A] ++ py "y")
     = [py "x"; []; py "  "; py "x"; py "y"]
  /\ tally 1 (py "A")
       (surviving_lines (py "x" ++ [0x0A; 0x0A; 0x20; 0x20; 0x0A] ++ py "x"
                         ++ [0x0A] ++ py "y")) []
     = (2%nat, 1%nat, [Row 1 (py "A") (py "x"); Row 1 (py "A") (py "y")]).
Proof.
  split_and!; [|by vm_compute..].
  intros m e l anchor raw Hl Ha Ht.
  pose proof (msg_add_eq m e l anchor raw Hl Ha Ht) as Heq.
  pose proof (tally_counts (msg_from_user m) l (surviving_lines raw) (db e))
    as Hcount.
  pose proof (tally_growth (msg_from_user m) l (surviving_lines raw) (db e))
    as Hgrow.
  pose proof (tally_elem_of (msg_from_user m) l (surviving_lines raw) (db e)
                (surviving_lines_trimmed raw)) as Helem.
  destruct (tally _ _ _ _) as [[added skipped] t'].
  exists added, skipped, t'. split_and!; try done.
  - by rewrite <- length_surviving_lines.
  - intros w. rewrite !elem_of_select_words, Helem. split.
    + intros [?|(line & Hline & [= ->])]; auto.
    + intros [?|Hw]; [by left|]. right. by exists w.
Qed.

(** C4 on the example of the specification, submitted for list A. *)
Lemma bulk_add_tallies_witness :
  exists added skipped t',
    tally 1 (py "A")
      (surviving_lines (py "x" ++ [0x0A; 0x0A; 0x20; 0x20; 0x0A] ++ py "x"
                        ++ [0x0A] ++ py "y")) []
    = (added, skipped, t')
    /\ msg_add
         {| msg_from_user := 1; msg_chat := 1; msg_message_id := 101;
            msg_text := Some (py "x" ++ [0x0A; 0x0A; 0x20; 0x20; 0x0A]
                              ++ py "x" ++ [0x0A] ++ py "y") |}
         (Env [] (Context (Some waiting_add)
                    (FsmData (Some (py "A")) (Some 100%Z))) [])
       = (Ok tt,
          Env t' idle
              ([] ++ [message_delete 1 101;
                      edit_text 1 100
                        (add_suffix (edit_view 1 (py "A") t')
                                    (AddedSkipped added skipped))
                        (kb_edit (py "A"))])).
Proof.
  destruct bulk_add_tallies as [Hgen _].
  destruct (Hgen
              {| msg_from_user := 1; msg_chat := 1; msg_message_id := 101;
                 msg_text := Some (py "x" ++ [0x0A; 0x0A; 0x20; 0x20; 0x0A]
                                   ++ py "x" ++ [0x0A] ++ py "y") |}
              (Env [] (Context (Some waiting_add)
                         (FsmData (Some (py "A")) (Some 100%Z))) [])
              (py "A") 100%Z
              (py "x" ++ [0x0A; 0x0A; 0x20; 0x20; 0x0A] ++ py "x"
               ++ [0x0A] ++ py "y") eq_refl eq_refl eq_refl)
    as (added & skipped & t' & Htally & Hmsg & _).
  by exists added, skipped, t'.
Defined.



(** C6. [remove_word] looks for the trimmed text.  When it is listed the
    call deletes it, returns true, and leaves every other row and every
    other word of the list in place; when it is not listed the call returns
    false and the table is as before.  A second removal of the same word
    returns false and changes nothing. *)
Theorem remove_word_deletes_once (u : Z) (l w : pystr) (t : table) :
  (strip w ∉ select_words u l t ->
   Storage.remove_word u l w t = (Ok false, t))
  /\ (strip w ∈ select_words u l t ->
      exists t',
        Storage.remove_word u l w t = (Ok true, t')
        /\ (forall r, r ∈ t' <-> r ∈ t /\ r <> Row u l (strip w))
        /\ select_words u l t'
           = filter (fun x => x <> strip w) (select_words u l t)
        /\ Storage.remove_word u l w t' = (Ok false, t')).
Proof.
  rewrite elem_of_select_words. split.
  - intros Hout. rewrite remove_word_eq, bool_decide_eq_false_2 by done.
    f_equal. apply filter_all. by intros r Hr ->.
  - intros Hin. rewrite remove_word_eq, bool_decide_eq_true_2 by done.
    eexists. split; [done|]. split_and!.
    + intros r. rewrite list_elem_of_filter. tauto.
    + apply select_words_filter. intros x. split; [by intros ? ->|].
      by intros ? [= ->].
    + rewrite remove_word_eq, bool_decide_eq_false_2.
      * f_equal. apply filter_all. by intros r [? _]%list_elem_of_filter.
      * by intros [? _]%list_elem_of_filter.
Qed.

(** C6 on a list of two words: removing ["foo"] twice gives true, then
    false. *)
Lemma remove_word_deletes_once_witness :
  exists t',
    Storage.remove_word 1 (py "A") (py "foo ")
      [Row 1 (py "A") (py "bar"); Row 1 (py "A") (py "foo")] = (Ok true, t')
    /\ (forall r, r ∈ t' <->
          r ∈ [Row 1 (py "A") (py "bar"); Row 1 (py "A") (py "foo")]
          /\ r <> Row 1 (py "A") (strip (py "foo ")))
    /\ select_words 1 (py "A") t'
       = filter (fun x => x <> strip (py "foo "))
           (select_words 1 (py "A")
              [Row 1 (py "A") (py "bar"); Row 1 (py "A") (py "foo")])
    /\ Storage.remove_word 1 (py "A") (py "foo ") t' = (Ok false, t').
Proof.
  apply (remove_word_deletes_once 1 (py "A") (py "foo ")
           [Row 1 (py "A") (py "bar"); Row 1 (py "A") (py "foo")]).
  vm_compute. right. left.
Defined.

(** C7. [get_words] always returns, and never changes the table.  What it
    returns are exactly the words listed for that user and list, in
    ascending lexicographic order; on a table that respects its primary key
    no word comes twice, so the order is strict; and when nothing is listed
    for that user and list the result is the empty sequence. *)
Theorem get_words_sorted (u : Z) (l : pystr) (t : table) :
  exists ws,
    Storage.get_words u l t = (Ok ws, t)
    /\ (forall w, w ∈ ws <-> Row u l w ∈ t)
    /\ StronglySorted lexicographic ws
    /\ (unique t ->
        NoDup ws /\ StronglySorted (fun a b => lexicographic a b /\ a <> b) ws)
    /\ ((forall w, Row u l w ∉ t) -> ws = []).
Proof.
  exists (select_words u l t). split_and!.
  - apply get_words_eq.
  - intros w. apply elem_of_select_words.
  - eapply StronglySorted_weaken; [|apply select_words_sorted].
    intros a b. apply str_le_lexicographic.
  - intros Hu. pose proof (select_words_NoDup u l t Hu) as Hnd.
    split; [done|].
    eapply StronglySorted_weaken; [|apply sorted_strict, Hnd].
    + intros a b [Hab ?]. split; [by apply str_le_lexicographic|done].
    + apply select_words_sorted.
  - intros Hnone. apply select_words_empty.
    intros [u' l' w'] Hr [Hu Hl]. simpl in *. subst. by apply (Hnone w').
Qed.

(** C7 on a table of three rows of one list. *)
Lemma get_words_sorted_witness :
  NoDup (select_words 1 (py "A")
           [Row 1 (py "A") (py "b"); Row 1 (py "A") (py "ab");
            Row 1 (py "A") (py "a")]).
Proof.
  destruct (get_words_sorted 1 (py "A")
              [Row 1 (py "A") (py "b"); Row 1 (py "A") (py "ab");
               Row 1 (py "A") (py "a")])
    as (ws & Heq & _ & _ & Hu & _).
  injection Heq as <-. apply Hu.
  unfold unique. apply (bool_decide_unpack _). vm_compute. exact I.
Defined.

(** C8, as amended.  A user has one context in each chat, so one session
    at most in a chat.  When "add" is pressed in a chat for list [l1] on
    message [a1] and then, in the same chat, for list [l2] on message [a2],
    the context holds the second list and the second message only.  The
    text submitted next in that chat is added to [l2], the screen edited is
    [a2], the session ends, and a different list [l1] lists what it listed
    before.  The contexts of the other chats, and of the other users, are
    what they were throughout. *)
Theorem second_start_wins (int : pystr -> option Z)
  (command : pystr -> Message -> bool) (has_answer : bool) (ra rb : nat)
  (w : world) (chat u : Z) (l1 l2 : pystr) (a1 a2 : Z) (acc1 acc2 : bool)
  (m : Message) (raw : pystr) :
  msg_from_user m = u ->
  msg_chat m = chat ->
  msg_text m = Some raw ->
  command (py "start") m = false ->
  command (py "menu") m = false ->
  let start l a acc :=
    callback_update
      {| cb_from_user := u; cb_chat := chat; cb_message_id := a;
         cb_accessible := acc; cb_data := py "add:" ++ l |} in
  let w1 := (feed_update int command has_answer ra rb (start l1 a1 acc1) w).2 in
  let w2 := (feed_update int command has_answer ra rb (start l2 a2 acc2) w1).2 in
  let r := feed_update int command has_answer ra rb (message_update m) w2 in
  context_of w1 (chat, u)
  = Context (Some waiting_add) (FsmData (Some l1) (Some a1))
  /\ context_of w2 (chat, u)
     = Context (Some waiting_add) (FsmData (Some l2) (Some a2))
  /\ (exists added skipped t',
        tally u l2 (surviving_lines raw) (w_db w) = (added, skipped, t')
        /\ r.1 = handled (Ok tt)
                   [message_delete chat (msg_message_id m);
                    edit_text chat a2
                      (add_suffix (edit_view u l2 t')
                                  (AddedSkipped added skipped))
                      (kb_edit l2)]
        /\ w_db r.2 = t'
        /\ context_of r.2 (chat, u) = idle
        /\ (l1 <> l2 -> select_words u l1 t' = select_words u l1 (w_db w)))
  /\ (forall k, k <> (chat, u) ->
        context_of w1 k = context_of w k
        /\ context_of w2 k = context_of w k
        /\ context_of r.2 k = context_of w k).
Proof.
  intros Hu Hchat Ht Hstart Hmenu start w1 w2 r.
  destruct (feed_update_add int command has_answer ra rb
              {| cb_from_user := u; cb_chat := chat; cb_message_id := a1;
                 cb_accessible := acc1; cb_data := py "add:" ++ l1 |}
              w l1 eq_refl) as [Hdb1 Hctx1].
  destruct (feed_update_add int command has_answer ra rb
              {| cb_from_user := u; cb_chat := chat; cb_message_id := a2;
                 cb_accessible := acc2; cb_data := py "add:" ++ l2 |}
              w1 l2 eq_refl) as [Hdb2 Hctx2].
  cbn [cb_from_user cb_chat cb_message_id] in Hctx1, Hctx2.
  fold (start l1 a1 acc1) in Hdb1, Hctx1. fold w1 in Hdb1, Hctx1, Hdb2, Hctx2.
  fold (start l2 a2 acc2) in Hdb2, Hctx2. fold w2 in Hdb2, Hctx2.
  assert (key_of (message_update m) = (chat, u)) as Hkey
    by (unfold key_of; cbn; by rewrite Hu, Hchat).
  split_and!; [done|done| |].
  - pose proof (tally_other u l2 (surviving_lines raw) (w_db w) u l1) as Hother.
    destruct (tally u l2 (surviving_lines raw) (w_db w))
      as [[added skipped] t'] eqn:Htally.
    exists added, skipped, t'. split; [done|].
    assert (r = (handled (Ok tt)
                   [message_delete chat (msg_message_id m);
                    edit_text chat a2
                      (add_suffix (edit_view u l2 t')
                         (AddedSkipped added skipped))
                      (kb_edit l2)],
                 World t' (<[(chat, u) := idle]> (w_fsm w2)))) as ->.
    { unfold r.
      rewrite (feed_update_eq int command has_answer ra rb (message_update m)
                 w2 (msg_add m)).
      2:{ rewrite Hkey, Hctx2. by apply route_msg_add. }
      rewrite Hkey.
      rewrite (msg_add_eq m _ l2 a2 raw); [|by rewrite Hctx2..|done].
      cbn [db]. rewrite Hu, Hchat, Hdb2, Hdb1, Htally. done. }
    split_and!; [done|done| |].
    + cbn [snd]. rewrite context_of_insert. by rewrite decide_True.
    + intros Hne. apply Hother. tauto.
  - intros k Hk.
    assert (context_of w1 k = context_of w k) as H1
      by by apply feed_update_context_other.
    assert (context_of w2 k = context_of w1 k) as H2
      by by apply feed_update_context_other.
    split_and!; [done|congruence|].
    unfold r. rewrite feed_update_context_other by by rewrite Hkey.
    congruence.
Qed.

(** C8 from the start-up state: the text goes to list B, pressed second in
    the same chat. *)
Lemma second_start_wins_witness :
  context_of
    (feed_update int_ascii command_exact true 0 0
       (callback_update
          {| cb_from_user := 7; cb_chat := 7; cb_message_id := 20;
             cb_accessible := true; cb_data := py "add:" ++ py "B" |})
       (feed_update int_ascii command_exact true 0 0
          (callback_update
             {| cb_from_user := 7; cb_chat := 7; cb_message_id := 10;
                cb_accessible := true; cb_data := py "add:" ++ py "A" |})
          initial).2).2 (7, 7)%Z
  = Context (Some waiting_add) (FsmData (Some (py "B")) (Some 20%Z)).
Proof.
  apply (second_start_wins int_ascii command_exact true 0 0 initial 7 7
           (py "A") (py "B") 10 20 true true
           {| msg_from_user := 7; msg_chat := 7; msg_message_id := 30;
              msg_text := Some (py "Betrayal") |}
           (py "Betrayal")); reflexivity.
Defined.

(** C8 as the claim has it fails.  A user who presses "add" for list A in
    the private chat and then for list B in a group has two live sessions,
    one in each chat; the text sent next in the private chat is added to
    list A and shown on the message of the first start, and the session of
    the group stays open. *)
Lemma sessions_are_per_chat :
  let press l chat a :=
    callback_update
      {| cb_from_user := 7; cb_chat := chat; cb_message_id := a;
         cb_accessible := true; cb_data := py "add:" ++ l |} in
  let w1 :=
    (feed_update int_ascii command_exact true 0 0 (press (py "A") 7%Z 10%Z)
       initial).2 in
  let w2 :=
    (feed_update int_ascii command_exact true 0 0
       (press (py "B") (-100)%Z 20%Z) w1).2 in
  let r :=
    feed_update int_ascii command_exact true 0 0
      (message_update
         {| msg_from_user := 7; msg_chat := 7; msg_message_id := 30;
            msg_text := Some (py "Betrayal") |}) w2 in
  context_of w2 (7, 7)%Z
  = Context (Some waiting_add) (FsmData (Some (py "A")) (Some 10%Z))
  /\ context_of w2 (-100, 7)%Z
     = Context (Some waiting_add) (FsmData (Some (py "B")) (Some 20%Z))
  /\ r.1 = handled (Ok tt)
             [message_delete 7 30;
              edit_text 7 10
                (EditText (py "A") 1 [py "Betrayal"] false (AddedSkipped 1 0))
                (kb_edit (py "A"))]
  /\ select_words 7 (py "A") (w_db r.2) = [py "Betrayal"]
  /\ select_words 7 (py "B") (w_db r.2) = []
  /\ context_of r.2 (-100, 7)%Z
     = Context (Some waiting_add) (FsmData (Some (py "B")) (Some 20%Z)).
Proof. by vm_compute. Qed.

(** C9, as amended.  While a session awaits text, in the chat and for the
    user of the session: a message with text ends it, whatever the text; so
    do the commands, the "back" button and the buttons that open a list;
    pressing "add" replaces it by a session for the new list and message;
    and nothing else changes it: not a message with no text that is no
    command, not any other button (the Back button of the removal picker
    among them), and no update of another chat or of another user. *)
Theorem awaiting_text_transitions (int : pystr -> option Z)
  (command : pystr -> Message -> bool) (has_answer : bool) (ra rb : nat)
  (upd : update) (w : world) (k : Z * Z) :
  reachable int command has_answer w ->
  AwaitingText (context_of w k) ->
  let w' := (feed_update int command has_answer ra rb upd w).2 in
  (key_of upd <> k -> context_of w' k = context_of w k)
  /\ (key_of upd = k ->
      match upd with
      | message_update m =>
          (is_Some (msg_text m)
           \/ command (py "start") m = true \/ command (py "menu") m = true ->
           Idle (context_of w' k))
          /\ (msg_text m = None ->
              command (py "start") m = false ->
              command (py "menu") m = false ->
              context_of w' k = context_of w k)
      | callback_update c =>
          (cb_data c = py "back" \/ startswith (py "edit:") (cb_data c) = true ->
           Idle (context_of w' k))
          /\ (forall l,
                cb_data c = py "add:" ++ l ->
                context_of w' k
                = Context (Some waiting_add)
                    (FsmData (Some l) (Some (cb_message_id c))))
          /\ (cb_data c <> py "back" ->
              startswith (py "edit:") (cb_data c) = false ->
              startswith (py "add:") (cb_data c) = false ->
              context_of w' k = context_of w k)
      end).
Proof.
  intros Hreach Haw w'. unfold w'. clear w'. split.
  { intros Hk. by apply feed_update_context_other. }
  intros <-.
  destruct (reachable_world_ok int command has_answer w Hreach) as [_ Hsess].
  destruct (Hsess (key_of upd) Haw) as [[l Hl] [anchor Ha]].
  unfold AwaitingText in Haw. rewrite feed_update_context, Haw.
  destruct upd as [m|c].
  - unfold route. split.
    + intros Htext.
      unfold Idle.
      destruct (command (py "start") m); [by rewrite cmd_start_state|].
      destruct (command (py "menu") m); [by rewrite cmd_menu_state|].
      rewrite decide_True by done.
      destruct Htext as [[raw Hraw]|[?|?]]; [|done..].
      rewrite (msg_add_eq m _ l anchor raw) by done.
      by destruct (tally _ _ _ _) as [[??]?].
    + intros Hnone -> ->. rewrite decide_True by done.
      by rewrite msg_add_no_text.
  - split_and!.
    + intros Hleave. unfold Idle, route. cbn zeta.
      destruct (decide (cb_data c = py "back"));
        [by rewrite cb_back_state|].
      destruct Hleave as [?| ->]; [done|by rewrite cb_edit_state].
    + intros l' Hc. rewrite (route_add int command has_answer ra rb c _ l' Hc).
      by apply cb_add_after; rewrite Hc, split_add.
    + intros Hback Hedit Hadd. unfold route. cbn zeta.
      rewrite Hedit, decide_False by done.
      destruct (decide (cb_data c = py "roll")).
      { by apply (cb_roll_state
                    (fun s => s = context_of w (key_of (callback_update c)))). }
      rewrite Hadd.
      repeat match goal with
             | |- context [if ?b then _ else _] => destruct b
             end; try done.
      * by apply (cb_remove_show_list_state
                    (fun s => s = context_of w (key_of (callback_update c)))).
      * by apply (cb_remove_back_state
                    (fun s => s = context_of w (key_of (callback_update c)))).
      * by apply (cb_do_remove_state int has_answer
                    (fun s => s = context_of w (key_of (callback_update c)))).
      * by apply (cb_clear_state
                    (fun s => s = context_of w (key_of (callback_update c)))).
Qed.

(** C9 after "add" was pressed for list A: a text of blank lines ends the
    session. *)
Lemma awaiting_text_transitions_witness :
  Idle (context_of
          (feed_update int_ascii command_exact true 0 0
             (message_update
                {| msg_from_user := 7; msg_chat := 7; msg_message_id := 30;
                   msg_text := Some [0x20; 0x0A; 0x20] |})
             (feed_update int_ascii command_exact true 0 0
                (callback_update
                   {| cb_from_user := 7; cb_chat := 7; cb_message_id := 10;
                      cb_accessible := true; cb_data := py "add:A" |})
                initial).2).2 (7, 7)%Z).
Proof.
  apply (awaiting_text_transitions int_ascii command_exact true 0 0
           (message_update
              {| msg_from_user := 7; msg_chat := 7; msg_message_id := 30;
                 msg_text := Some [0x20; 0x0A; 0x20] |})
           (feed_update int_ascii command_exact true 0 0
              (callback_update
                 {| cb_from_user := 7; cb_chat := 7; cb_message_id := 10;
                    cb_accessible := true; cb_data := py "add:A" |})
              initial).2
           (7, 7)%Z).
  - apply reachable_update, reachable_initial.
  - reflexivity.
  - reflexivity.
  - left. by eexists.
Defined.

(** C9 as the claim has it fails: the Back button of the removal picker
    leads to the edit screen and leaves the session open.  The user opens
    two menus, messages 10 and 11.  On message 10 the word x is added to
    list A and the removal picker is opened, which shows a Back button.  On
    message 11 "add" is pressed for list A.  Back on message 10 is then
    answered with the edit screen, and the session still awaits text. *)
Lemma picker_back_keeps_session :
  let feed w upd := feed_update int_ascii command_exact true 0 0 upd w in
  let say id text :=
    message_update
      {| msg_from_user := 7; msg_chat := 7; msg_message_id := id;
         msg_text := Some text |} in
  let press id data :=
    callback_update
      {| cb_from_user := 7; cb_chat := 7; cb_message_id := id;
         cb_accessible := true; cb_data := data |} in
  let w5 :=
    foldl (fun w upd => (feed w upd).2) initial
      [say 1%Z (py "/start"); say 2%Z (py "/start");
       press 10%Z (py "edit:A"); press 10%Z (py "add:A"); say 3%Z (py "x")] in
  let picker := feed w5 (press 10%Z (py "remove:A")) in
  let w8 :=
    foldl (fun w upd => (feed w upd).2) picker.2
      [press 11%Z (py "edit:A"); press 11%Z (py "add:A")] in
  let back := feed w8 (press 10%Z (py "remove_back:A")) in
  picker.1 = handled (Ok tt)
               [callback_answer;
                edit_text 7 10 (RemovePromptText (py "A"))
                  [Button (WordCaption (py "x")) (py "do_remove:A:0");
                   Button Back (py "remove_back:A")]]
  /\ context_of w8 (7, 7)%Z
     = Context (Some waiting_add) (FsmData (Some (py "A")) (Some 11%Z))
  /\ back.1 = handled (Ok tt)
                [callback_answer;
                 edit_text 7 10
                   (EditText (py "A") 1 [py "x"] false NoSuffix)
                   (kb_edit (py "A"))]
  /\ context_of back.2 (7, 7)%Z
     = Context (Some waiting_add) (FsmData (Some (py "A")) (Some 11%Z)).
Proof. by vm_compute. Qed.

(** C10. A roll only reads.  [roll] hands the table back as it got it, so
    [get_words] returns for every user and list what it returned before;
    and the roll button, through the router, changes neither the table nor
    anybody's context. *)
Theorem roll_changes_nothing (int : pystr -> option Z)
  (command : pystr -> Message -> bool) (has_answer : bool) (ra rb : nat) (u : Z) (t : table) :
  after (Storage.roll ra rb u) t = t
  /\ (forall u' l',
        value (Storage.get_words u' l') (after (Storage.roll ra rb u) t)
        = value (Storage.get_words u' l') t)
  /\ (forall (c : CallbackQuery) (w : world),
        cb_data c = py "roll" ->
        w_db (feed_update int command has_answer ra rb (callback_update c) w).2 = w_db w
        /\ forall k,
             context_of
               (feed_update int command has_answer ra rb (callback_update c) w).2 k
             = context_of w k).
Proof.
  assert (after (Storage.roll ra rb u) t = t) as Hafter
    by apply read_only_roll.
  split_and!; [done|by intros; rewrite Hafter|].
  intros c w Hc.
  assert (forall st, route int command has_answer ra rb (callback_update c) st
                     = Some (cb_roll ra rb c)) as Hroute.
  { intros st. unfold route. by rewrite Hc. }
  split.
  - unfold feed_update. rewrite Hroute.
    pose proof (cb_roll_db (fun t' => t' = w_db w) ra rb c
                  (Env (w_db w) (context_of w (key_of (callback_update c))) [])
                  eq_refl)
      as Hdb.
    by destruct (cb_roll _ _ _ _) as [r e].
  - intros k. destruct (decide (k = key_of (callback_update c))) as [->|Hne].
    + rewrite feed_update_context, Hroute.
      by apply (cb_roll_state
                  (fun s => s = context_of w (key_of (callback_update c)))).
    + by apply feed_update_context_other.
Qed.

(** C10 on a table with one word in each list. *)
Lemma roll_changes_nothing_witness :
  w_db (feed_update int_ascii command_exact true 3 4
          (callback_update
             {| cb_from_user := 1; cb_chat := 1; cb_message_id := 10;
             cb_accessible := true; cb_data := py "roll" |})
          (World [Row 1 (py "A") (py "Naruto"); Row 1 (py "B") (py "Betrayal")]
                 ∅)).2
  = [Row 1 (py "A") (py "Naruto"); Row 1 (py "B") (py "Betrayal")].
Proof.
  apply (roll_changes_nothing int_ascii command_exact true 3 4 1 []).
  reflexivity.
Defined.

(** * Further properties of the store and of the handlers *)

Section MoreStorage.

Implicit Types (t : table) (u : Z) (l w : pystr) (r : row).

(** The ordered view does not depend on the order of the rows. *)
Lemma select_words_perm u l t t' :
  t ≡ₚ t' -> select_words u l t = select_words u l t'.
Proof.
  intros Hp. apply sorted_unique; [apply select_words_sorted..|].
  rewrite !select_words_Permutation. by rewrite Hp.
Qed.

Lemma select_words_filter_other (P : row -> Prop)
  `{!forall r, Decision (P r)} u l t :
  (forall w, P (Row u l w)) ->
  select_words u l (filter P t) = select_words u l t.
Proof.
  intros HP. rewrite (select_words_filter P (fun _ => True)).
  - by apply filter_all.
  - intros w. split; [done|]. intros _. apply HP.
Qed.

Lemma add_word_other u l w t u' l' :
  ~ (u' = u /\ l' = l) ->
  select_words u' l' (after (Storage.add_word u l w) t) = select_words u' l' t.
Proof.
  intros Hne. unfold after. rewrite add_word_eq.
  repeat case_decide; try done. simpl.
  apply select_words_snoc_other. simpl. intros [<- <-]. by apply Hne.
Qed.

Lemma remove_word_other u l w t u' l' :
  ~ (u' = u /\ l' = l) ->
  select_words u' l' (after (Storage.remove_word u l w) t)
  = select_words u' l' t.
Proof.
  intros Hne. unfold after. rewrite remove_word_eq. simpl.
  apply select_words_filter_other. intros x [= -> ->]. by apply Hne.
Qed.

Lemma clear_list_other u l t u' l' :
  ~ (u' = u /\ l' = l) ->
  select_words u' l' (after (Storage.clear_list u l) t) = select_words u' l' t.
Proof.
  intros Hne. unfold after. rewrite clear_list_eq. simpl.
  apply select_words_filter_other. intros x Hm. simpl in Hm. by apply Hne.
Qed.

Lemma remove_added_row t r : r ∉ t -> filter (fun x => x <> r) (t ++ [r]) = t.
Proof.
  intros Hr. rewrite filter_app, (filter_cons_False _ r []) by (by intros H).
  rewrite app_nil_r. apply filter_all. by intros x Hx ->.
Qed.

Lemma add_removed_row t r :
  NoDup t -> r ∈ t -> filter (fun x => x <> r) t ++ [r] ≡ₚ t.
Proof.
  intros Hnd Hr. apply NoDup_Permutation; [|done|].
  - apply NoDup_app. split_and!; [by apply NoDup_filter| |apply NoDup_singleton].
    intros x [Hx _]%list_elem_of_filter ->%list_elem_of_singleton. done.
  - intros x. rewrite elem_of_app, list_elem_of_filter, list_elem_of_singleton.
    destruct (decide (x = r)) as [->|Hx]; split;
      [by intros _|by right|by intros [[_ ?]|?]|intros ?; by left].
Qed.

End MoreStorage.

(** X1. [clear_list] empties the list it is called for, whatever it held:
    [get_words] then returns the empty sequence.  Every other list, of this
    user and of all others, is listed as before, and clearing again changes
    nothing. *)
Theorem clear_list_empties (u : Z) (l : pystr) (t : table) :
  exists t',
    Storage.clear_list u l t = (Ok tt, t')
    /\ Storage.get_words u l t' = (Ok [], t')
    /\ (forall u' l', ~ (u' = u /\ l' = l) ->
                      select_words u' l' t' = select_words u' l' t)
    /\ Storage.clear_list u l t' = (Ok tt, t').
Proof.
  eexists. split; [apply clear_list_eq|]. split_and!.
  - rewrite get_words_eq. f_equal. f_equal. apply select_words_empty.
    by intros r [Hr _]%list_elem_of_filter.
  - intros u' l' Hne. by apply (clear_list_other u l t u' l').
  - rewrite clear_list_eq. f_equal. apply filter_all.
    by intros r [Hr _]%list_elem_of_filter.
Qed.

(** X1 with list A of user 1 cleared: list B of user 1 keeps its word. *)
Lemma clear_list_empties_witness :
  select_words 1 (py "B")
    (after (Storage.clear_list 1 (py "A"))
       [Row 1 (py "A") (py "x"); Row 1 (py "B") (py "y")])
  = select_words 1 (py "B")
      [Row 1 (py "A") (py "x"); Row 1 (py "B") (py "y")].
Proof.
  destruct (clear_list_empties 1 (py "A")
              [Row 1 (py "A") (py "x"); Row 1 (py "B") (py "y")])
    as (t' & Heq & _ & Hother & _).
  unfold after. rewrite Heq. apply Hother. intros [_ H]. discriminate H.
Defined.

(** X2. [add_word] and [remove_word] touch one list only: for every other
    pair of user and list, [get_words] returns after the call what it
    returned before. *)
Theorem add_remove_touch_one_list (u : Z) (l w : pystr) (t : table)
  (u' : Z) (l' : pystr) :
  ~ (u' = u /\ l' = l) ->
  value (Storage.get_words u' l') (after (Storage.add_word u l w) t)
  = value (Storage.get_words u' l') t
  /\ value (Storage.get_words u' l') (after (Storage.remove_word u l w) t)
     = value (Storage.get_words u' l') t.
Proof.
  intros Hne. unfold value. rewrite !get_words_eq. simpl.
  by rewrite add_word_other, remove_word_other.
Qed.

(** X2 with a word added to list A of user 1 and list A of user 2 read. *)
Lemma add_remove_touch_one_list_witness :
  value (Storage.get_words 2 (py "A"))
    (after (Storage.add_word 1 (py "A") (py "x")) [Row 2 (py "A") (py "y")])
  = value (Storage.get_words 2 (py "A")) [Row 2 (py "A") (py "y")].
Proof.
  apply (add_remove_touch_one_list 1 (py "A") (py "x")
           [Row 2 (py "A") (py "y")] 2 (py "A")).
  intros [H _]. discriminate H.
Defined.

(** X3. Adding a word that is not listed and then removing it gives back
    the very table; removing a listed word and then adding it again gives,
    on a table that respects its primary key, a table on which every list
    reads as before. *)
Theorem add_remove_round_trip (u : Z) (l w : pystr) (t : table) :
  (strip w <> [] -> strip w ∉ select_words u l t ->
   (Storage.add_word u l w ;; Storage.remove_word u l w) t = (Ok true, t))
  /\ (unique t -> strip w <> [] -> strip w ∈ select_words u l t ->
      exists t',
        (Storage.remove_word u l w ;; Storage.add_word u l w) t = (Ok true, t')
        /\ forall u' l', select_words u' l' t' = select_words u' l' t).
Proof.
  rewrite elem_of_select_words. split.
  - intros Hne Hnew. unfold bind. rewrite add_word_eq, !decide_False by done.
    rewrite remove_word_eq, remove_added_row by done.
    rewrite bool_decide_eq_true_2; [done|]. apply elem_of_app. right. left.
  - intros Hu Hne Hin. unfold bind. rewrite remove_word_eq, add_word_eq.
    rewrite decide_False by done.
    rewrite decide_False by (by intros [H _]%list_elem_of_filter).
    eexists. split; [done|]. intros u' l'.
    by apply select_words_perm, add_removed_row.
Qed.

(** X3 on a list of two words: "b" is removed and added again. *)
Lemma add_remove_round_trip_witness :
  exists t',
    (Storage.remove_word 1 (py "A") (py "b") ;;
     Storage.add_word 1 (py "A") (py "b"))
      [Row 1 (py "A") (py "b"); Row 1 (py "A") (py "a")] = (Ok true, t')
    /\ forall u' l',
         select_words u' l' t'
         = select_words u' l'
             [Row 1 (py "A") (py "b"); Row 1 (py "A") (py "a")].
Proof.
  apply (add_remove_round_trip 1 (py "A") (py "b")
           [Row 1 (py "A") (py "b"); Row 1 (py "A") (py "a")]).
  - unfold unique. apply (bool_decide_unpack _). vm_compute. exact I.
  - by vm_compute.
  - vm_compute. right. left.
Defined.

Section HandlersOfOneUser.

Context (int : pystr -> option Z) (command : pystr -> Message -> bool)
  (has_answer : bool).

(** A property of the table that the writing methods keep when they are
    called for user [u]. *)
Context (u : Z) (J : table -> Prop).
Context (Hadd : forall l w, preserves J (Storage.add_word u l w)).
Context (Hremove : forall l w, preserves J (Storage.remove_word u l w)).
Context (Hclear : forall l, preserves J (Storage.clear_list u l)).

Local Ltac reads :=
  apply preserves_read_only;
  first [ apply read_only_get_words | apply read_only_text_edit ].

Local Ltac handler :=
  repeat preserves_step;
  first [ reads | apply Hadd | apply Hremove | apply Hclear
        | apply add_lines_preserves, Hadd ].

Lemma msg_add_db_of m :
  msg_from_user m = u -> preserves (fun e => J (db e)) (msg_add m).
Proof. intros Hu. unfold msg_add. rewrite Hu. handler. Qed.

Lemma cb_do_remove_db_of c :
  cb_from_user c = u -> preserves (fun e => J (db e)) (cb_do_remove int has_answer c).
Proof. intros Hu. unfold cb_do_remove. rewrite Hu. handler. Qed.

Lemma cb_clear_db_of c :
  cb_from_user c = u -> preserves (fun e => J (db e)) (cb_clear c).
Proof. intros Hu. unfold cb_clear. rewrite Hu. handler. Qed.

Lemma route_db_of ra rb upd st h :
  from_user upd = u ->
  route int command has_answer ra rb upd st = Some h -> preserves (fun e => J (db e)) h.
Proof.
  unfold route. intros Hu Hr.
  destruct upd as [m|c]; simpl in Hu;
    repeat match type of Hr with
           | (if ?b then _ else _) = _ => destruct b
           end;
    try discriminate; injection Hr as <-;
    auto using cmd_start_db, cmd_menu_db, cb_back_db, cb_edit_db, cb_roll_db,
      cb_add_db, msg_add_db_of, cb_remove_show_list_db, cb_remove_back_db,
      cb_do_remove_db_of, cb_clear_db_of.
Qed.

Lemma feed_update_db_of ra rb upd w :
  from_user upd = u ->
  J (w_db w) -> J (w_db (feed_update int command has_answer ra rb upd w).2).
Proof.
  intros Hu Hw. unfold feed_update.
  destruct (route _ _ _ _ _ _ _) as [h|] eqn:Hr; [|done].
  pose proof (route_db_of _ _ _ _ _ Hu Hr
                (Env (w_db w) (context_of w (key_of upd)) []) Hw) as Hh.
  by destruct (h _) as [r e].
Qed.

End HandlersOfOneUser.

(** X4. An update changes nothing for anybody but its sender: whatever the
    update and whichever handler takes it, every list of every other user
    reads as before, and every other user's session is as it was, in every
    chat. *)
Theorem update_touches_sender_only (int : pystr -> option Z)
  (command : pystr -> Message -> bool) (has_answer : bool) (ra rb : nat) (upd : update)
  (w : world) (u' : Z) :
  u' <> from_user upd ->
  (forall l',
     value (Storage.get_words u' l')
       (w_db (feed_update int command has_answer ra rb upd w).2)
     = value (Storage.get_words u' l') (w_db w))
  /\ (forall chat,
        context_of (feed_update int command has_answer ra rb upd w).2 (chat, u')
        = context_of w (chat, u')).
Proof.
  intros Hne. split.
  2:{ intros chat. apply feed_update_context_other. unfold key_of. congruence. }
  intros l'. unfold value. rewrite !get_words_eq. simpl. f_equal.
  apply (feed_update_db_of int command has_answer (from_user upd)
           (fun t => select_words u' l' t = select_words u' l' (w_db w)));
    try done.
  - intros l x t Ht. rewrite <- Ht. apply add_word_other. by intros [? _].
  - intros l x t Ht. rewrite <- Ht. apply remove_word_other. by intros [? _].
  - intros l t Ht. rewrite <- Ht. apply clear_list_other. by intros [? _].
Qed.

(** X4 with user 7 submitting a word while user 8 has one. *)
Lemma update_touches_sender_only_witness :
  value (Storage.get_words 8 (py "A"))
    (w_db (feed_update int_ascii command_exact true 0 0
             (message_update
                {| msg_from_user := 7; msg_chat := 7; msg_message_id := 30;
                   msg_text := Some (py "x") |})
             (World [Row 8 (py "A") (py "y")]
                (<[(7, 7)%Z := Context (Some waiting_add)
                                 (FsmData (Some (py "A")) (Some 10%Z))]> ∅))).2)
  = value (Storage.get_words 8 (py "A")) [Row 8 (py "A") (py "y")].
Proof.
  apply (update_touches_sender_only int_ascii command_exact true 0 0
           (message_update
              {| msg_from_user := 7; msg_chat := 7; msg_message_id := 30;
                 msg_text := Some (py "x") |})
           (World [Row 8 (py "A") (py "y")]
              (<[(7, 7)%Z := Context (Some waiting_add)
                               (FsmData (Some (py "A")) (Some 10%Z))]> ∅)) 8).
  discriminate.
Defined.

Section Payloads.

(** [split(":", 1)] and [split(":", 2)] cut at the first colons. *)
Lemma split_from_first cur p rest :
  colon ∉ p ->
  split_from colon 1 cur (p ++ colon :: rest) = [rev cur ++ p; rest].
Proof.
  revert cur. induction p as [|c p IH]; intros cur Hp; simpl.
  - rewrite app_nil_r. by destruct rest.
  - destruct (N.eqb_spec c colon) as [->|Hc]; [exfalso; apply Hp; left|].
    rewrite IH by (intros ?; apply Hp; by right). simpl.
    by rewrite <- app_assoc.
Qed.

Lemma split_first p rest :
  colon ∉ p -> split colon 1 (p ++ colon :: rest) = [p; rest].
Proof. intros Hp. unfold split. by rewrite split_from_first. Qed.

Lemma split_from_second cur p q rest :
  colon ∉ p -> colon ∉ q ->
  split_from colon 2 cur (p ++ colon :: q ++ colon :: rest)
  = [rev cur ++ p; q; rest].
Proof.
  revert cur. induction p as [|c p IH]; intros cur Hp Hq; simpl.
  - rewrite app_nil_r. f_equal. by rewrite split_from_first.
  - destruct (N.eqb_spec c colon) as [->|Hc]; [exfalso; apply Hp; left|].
    rewrite IH by (try done; intros ?; apply Hp; by right). simpl.
    by rewrite <- app_assoc.
Qed.

Lemma split_second p q rest :
  colon ∉ p -> colon ∉ q ->
  split colon 2 (p ++ colon :: q ++ colon :: rest) = [p; q; rest].
Proof. intros Hp Hq. unfold split. by rewrite split_from_second. Qed.

Lemma no_colon_literal (p : pystr) : forallb (fun c => negb (c =? colon)) p = true -> colon ∉ p.
Proof.
  rewrite forallb_forall. intros Hp Hin. apply list_elem_of_In in Hin.
  specialize (Hp _ Hin). by rewrite N.eqb_refl in Hp.
Qed.

End Payloads.

Section HandlersReturn.

Context (int : pystr -> option Z) (command : pystr -> Message -> bool)
  (has_answer : bool).

Local Arguments select_words : simpl never.
Local Arguments Storage.roll : simpl never.
Local Arguments split : simpl never.
Local Arguments kb_edit : simpl never.
Local Arguments make_remove_kb : simpl never.

Local Ltac prog :=
  cbn; unfold bind, ret, raise, send, storage, item, state_clear,
         getattr_edit_text, edits; cbn.

Local Ltac payload Hc full p rest :=
  rewrite Hc;
  change (py full ++ rest) with (py p ++ colon :: rest);
  rewrite split_first by (apply no_colon_literal; reflexivity).

Local Ltac screen :=
  prog; destruct (cb_accessible _); prog; by rewrite <- ?app_assoc.

Lemma edits_value c e t st v kb :
  (edits c e t st v kb).1
  = if cb_accessible c then Ok tt else Raise AttributeError.
Proof. unfold edits. by destruct (cb_accessible c). Qed.

Lemma edits_after c e t st v kb :
  db (edits c e t st v kb).2 = t /\ state (edits c e t st v kb).2 = st.
Proof. unfold edits. by destruct (cb_accessible c). Qed.

Lemma edits_sent c e t st v kb :
  sent (edits c e t st v kb).2
  = sent e ++ callback_answer
             :: if cb_accessible c
                then [edit_text (cb_chat c) (cb_message_id c) v kb] else [].
Proof. unfold edits. by destruct (cb_accessible c). Qed.

(** The callback handlers, as equations. *)
Lemma cb_back_eq c e :
  cb_back c e =
  edits c e (db e) idle
    (MainText (length (select_words (cb_from_user c) (py "A") (db e)))
              (length (select_words (cb_from_user c) (py "B") (db e))))
    kb_main.
Proof. unfold cb_back. screen. Qed.

Lemma cb_edit_eq c e l :
  cb_data c = py "edit:" ++ l ->
  cb_edit c e =
  edits c e (db e) idle (edit_view (cb_from_user c) l (db e)) (kb_edit l).
Proof.
  intros Hc. unfold cb_edit. payload Hc "edit:"%string "edit"%string l.
  screen.
Qed.

Lemma cb_add_edits c e l :
  cb_data c = py "add:" ++ l ->
  cb_add c e =
  edits c e (db e)
    (Context (Some waiting_add) (FsmData (Some l) (Some (cb_message_id c))))
    (AddPromptText l) kb_cancel.
Proof. intros Hc. by rewrite cb_add_eq, Hc, split_add. Qed.

Lemma cb_remove_show_list_eq c e l :
  cb_data c = py "remove:" ++ l ->
  cb_remove_show_list c e =
  if decide (select_words (cb_from_user c) l (db e) = []) then
    edits c e (db e) (state e)
      (add_suffix (edit_view (cb_from_user c) l (db e)) NothingToRemove)
      (kb_edit l)
  else
    edits c e (db e) (state e) (RemovePromptText l)
      (make_remove_kb l (select_words (cb_from_user c) l (db e))).
Proof.
  intros Hc. unfold cb_remove_show_list.
  payload Hc "remove:"%string "remove"%string l.
  prog. destruct (decide _); screen.
Qed.

Lemma cb_remove_back_eq c e l :
  cb_data c = py "remove_back:" ++ l ->
  cb_remove_back c e =
  edits c e (db e) (state e) (edit_view (cb_from_user c) l (db e)) (kb_edit l).
Proof.
  intros Hc. unfold cb_remove_back.
  payload Hc "remove_back:"%string "remove_back"%string l. screen.
Qed.

Lemma cb_clear_eq c e l :
  cb_data c = py "clear:" ++ l ->
  cb_clear c e =
  edits c e (after (Storage.clear_list (cb_from_user c) l) (db e)) (state e)
    (edit_view (cb_from_user c) l
       (after (Storage.clear_list (cb_from_user c) l) (db e)))
    (kb_edit l).
Proof.
  intros Hc. unfold cb_clear. payload Hc "clear:"%string "clear"%string l.
  screen.
Qed.

(** Every callback handler but [cb_do_remove] ends in [edits], with a
    table, a context and a screen that do not depend on whether the message
    pressed is accessible. *)
Lemma route_callback ra rb c st h :
  route int command has_answer ra rb (callback_update c) st = Some h ->
  exists h',
    route int command has_answer ra rb (callback_update (with_message c)) st
    = Some h'
    /\ ((startswith (py "do_remove:") (cb_data c) = true
         /\ h = cb_do_remove int has_answer c
         /\ h' = cb_do_remove int has_answer (with_message c))
        \/ (startswith (py "do_remove:") (cb_data c) = false
            /\ forall e, exists t st' v kb,
                 h e = edits c e t st' v kb
                 /\ h' e = edits (with_message c) e t st' v kb)).
Proof.
  unfold route. cbn zeta. cbn [cb_data with_message]. intros Hr.
  repeat match type of Hr with
         | (if decide ?P then _ else _) = _ =>
             let H := fresh "Hdata" in destruct (decide P) as [H|H]
         | (if startswith ?p ?d then _ else _) = _ =>
             let H := fresh "Hd" in
             let H' := fresh "Hp" in
             destruct (startswith p d) eqn:H;
             [pose proof H as H'; apply startswith_spec in H' as [? H']|]
         end; try discriminate; injection Hr as <-;
    eexists; (split; [reflexivity|]).
  all: try (right; split;
            [first [ done
                   | match goal with
                     | H : cb_data _ = _ |- _ => by rewrite H
                     end ]|]).
  - intros e0. eexists _, _, _, _. by rewrite !cb_back_eq.
  - intros e0. eexists _, _, _, _.
    by rewrite (cb_edit_eq c e0 _ Hp), (cb_edit_eq (with_message c) e0 _ Hp).
  - intros e0. rewrite !cb_roll_eq.
    cbn [with_message cb_from_user cb_chat cb_message_id cb_accessible].
    destruct (decide (select_words (cb_from_user c) (py "A") (db e0) = []
                      \/ select_words (cb_from_user c) (py "B") (db e0) = []))
      as [He|Hne].
    + rewrite roll_empty by done. eexists _, _, _, _.
      split; reflexivity.
    + destruct (roll_nonempty ra rb (cb_from_user c) (db e0))
        as (x & y & -> & _); [tauto..|].
      eexists _, _, _, _. split; reflexivity.
  - intros e0. eexists _, _, _, _.
    by rewrite (cb_add_edits c e0 _ Hp), (cb_add_edits (with_message c) e0 _ Hp).
  - intros e0.
    rewrite (cb_remove_show_list_eq c e0 _ Hp),
      (cb_remove_show_list_eq (with_message c) e0 _ Hp).
    cbn [with_message cb_from_user].
    destruct (decide _); by eexists _, _, _, _.
  - intros e0. eexists _, _, _, _.
    by rewrite (cb_remove_back_eq c e0 _ Hp),
         (cb_remove_back_eq (with_message c) e0 _ Hp).
  - left. by split_and!.
  - intros e0. eexists _, _, _, _.
    by rewrite (cb_clear_eq c e0 _ Hp), (cb_clear_eq (with_message c) e0 _ Hp).
Qed.

Lemma cb_do_remove_value c e x :
  (cb_do_remove int has_answer c e).1 = Raise x ->
  x = AttributeError /\ cb_accessible c = false
  /\ sent (cb_do_remove int has_answer c e).2 = sent e ++ [callback_answer].
Proof.
  rewrite cb_do_remove_eq. cbn zeta.
  destruct (cb_accessible c), has_answer; cbn [orb];
    repeat match goal with
           | |- context [match ?x with _ => _ end] => destruct x
           end; cbn; intros [=]; by subst.
Qed.

Lemma msg_add_ok m e :
  session_ok (state e) -> AwaitingText (state e) -> is_Some (msg_text m) ->
  (msg_add m e).1 = Ok tt.
Proof.
  intros Hs Haw [raw Hraw]. destruct (Hs Haw) as [[l Hl] [a Ha]].
  rewrite (msg_add_eq m e l a raw) by done.
  by destruct (tally _ _ _ _) as [[??]?].
Qed.

Lemma msg_add_raises m e :
  session_ok (state e) -> AwaitingText (state e) -> msg_text m = None ->
  msg_add m e = (Raise AttributeError, e).
Proof.
  intros Hs Haw Hnone. destruct (Hs Haw) as [[l Hl] [a Ha]].
  unfold msg_add, bind, state_get_data. cbn. by rewrite Hl, Ha, Hnone.
Qed.

End HandlersReturn.

(** X5. On a reachable state a handler raises in two cases only, and what
    it raises is [AttributeError].  A message without text (a photo, a
    sticker) that is no command, received while the session of its chat and
    user awaits text, makes [msg_add] raise before it has done anything:
    the table and the contexts stay as they were and nothing is sent.  A
    button under an inaccessible message makes the handler raise where it
    would edit that message: the callback was answered and nothing else
    was sent.  Whether the message is accessible or not, a button leaves
    the same table and the same contexts. *)
Theorem handlers_raise_attribute_error_only (int : pystr -> option Z)
  (command : pystr -> Message -> bool) (has_answer : bool) (ra rb : nat)
  (upd : update) (w : world) :
  reachable int command has_answer w ->
  let feed upd := feed_update int command has_answer ra rb upd w in
  (forall x calls,
     (feed upd).1 = handled (Raise x) calls ->
     x = AttributeError
     /\ match upd with
        | message_update m =>
            msg_text m = None
            /\ AwaitingText (context_of w (key_of upd))
            /\ calls = []
            /\ w_db (feed upd).2 = w_db w
            /\ (forall k, context_of (feed upd).2 k = context_of w k)
        | callback_update c =>
            cb_accessible c = false /\ calls = [callback_answer]
        end)
  /\ (forall m,
        upd = message_update m -> msg_text m = None ->
        command (py "start") m = false -> command (py "menu") m = false ->
        AwaitingText (context_of w (key_of upd)) ->
        (feed upd).1 = handled (Raise AttributeError) [])
  /\ (forall c,
        upd = callback_update c ->
        (feed upd).2 = (feed (callback_update (with_message c))).2
        /\ (cb_accessible c = false ->
            startswith (py "do_remove:") (cb_data c) = false ->
            is_Some (route int command has_answer ra rb upd
                       (ctx_state (context_of w (key_of upd)))) ->
            (feed upd).1 = handled (Raise AttributeError) [callback_answer])).
Proof.
  intros Hreach feed. unfold feed. clear feed.
  destruct (reachable_world_ok int command has_answer w Hreach) as [_ Hsess].
  split_and!.
  - intros x calls.
    destruct (route int command has_answer ra rb upd
                (ctx_state (context_of w (key_of upd)))) as [h|] eqn:Hr.
    2:{ unfold feed_update. by rewrite Hr. }
    rewrite (feed_update_eq int command has_answer ra rb upd w h Hr).
    cbn [fst snd].
    set (e0 := Env (w_db w) (context_of w (key_of upd)) []).
    intros Hout.
    destruct upd as [m|c].
    + assert ((h e0).1 <> Ok tt) as Hnot
        by (intros Hok; by rewrite Hok in Hout).
      unfold route in Hr.
      destruct (command (py "start") m);
        [injection Hr as <-; by destruct Hnot|].
      destruct (command (py "menu") m);
        [injection Hr as <-; by destruct Hnot|].
      destruct (decide (_ = Some waiting_add)) as [Haw|]; [|done].
      injection Hr as <-.
      destruct (msg_text m) as [raw|] eqn:Ht.
      { destruct Hnot. apply msg_add_ok; [apply Hsess|done|by rewrite Ht]. }
      rewrite (msg_add_raises m e0) in Hout |- * by (done || apply Hsess).
      injection Hout as <- <-. split_and!; try done.
      intros k. rewrite context_of_insert. by case_decide; subst.
    + destruct (route_callback int command has_answer ra rb c _ h Hr)
        as (h' & _ & [(_ & -> & _)|(_ & Hed)]).
      * injection Hout as Hx Hcalls.
        destruct (cb_do_remove_value int has_answer c e0 x Hx)
          as (-> & Hacc & Hsent).
        by rewrite <- Hcalls, Hsent.
      * destruct (Hed e0) as (t & st' & v & kb & Hh & _).
        rewrite Hh in Hout. unfold edits in Hout.
        destruct (cb_accessible c); [done|].
        by injection Hout as <- <-.
  - intros m -> Ht Hs Hm Haw.
    rewrite (feed_update_eq int command has_answer ra rb (message_update m) w
               (msg_add m)).
    + cbn [fst snd]. by rewrite msg_add_raises by (done || apply Hsess).
    + rewrite Haw. by apply route_msg_add.
  - intros c ->.
    change (key_of (callback_update (with_message c)))
      with (key_of (callback_update c)).
    destruct (route int command has_answer ra rb (callback_update c)
                (ctx_state (context_of w (key_of (callback_update c)))))
      as [h|] eqn:Hr.
    + destruct (route_callback int command has_answer ra rb c _ h Hr)
        as (h' & Hr' & Hcases).
      rewrite (feed_update_eq int command has_answer ra rb _ w h Hr).
      rewrite (feed_update_eq int command has_answer ra rb _ w h' Hr').
      change (key_of (callback_update (with_message c)))
        with (key_of (callback_update c)).
      cbn [fst snd].
      set (e0 := Env (w_db w) (context_of w (key_of (callback_update c))) []).
      destruct Hcases as [(Hdo & -> & ->)|(Hdo & Hed)].
      * destruct (cb_do_remove_after int has_answer c e0) as [Hst Hdb].
        destruct (cb_do_remove_after int has_answer (with_message c) e0)
          as [Hst' Hdb'].
        unfold after in Hst, Hst', Hdb, Hdb' |- *.
        split; [|by rewrite Hdo].
        by rewrite Hst, Hst', Hdb, Hdb'.
      * destruct (Hed e0) as (t & st' & v & kb & -> & ->).
        destruct (edits_after c e0 t st' v kb) as [-> ->].
        destruct (edits_after (with_message c) e0 t st' v kb) as [-> ->].
        split; [done|]. intros Hacc _ _.
        by rewrite edits_value, edits_sent, Hacc.
    + split; [|by intros _ _ [? [=]]].
      assert (route int command has_answer ra rb
                (callback_update (with_message c))
                (ctx_state (context_of w (key_of (callback_update c))))
              = None) as Hr'.
      { unfold route in Hr |- *. cbn zeta in Hr |- *.
        cbn [with_message cb_data].
        repeat match type of Hr with
               | (if ?b then _ else _) = _ => destruct b
               end; done. }
      unfold feed_update.
      change (key_of (callback_update (with_message c)))
        with (key_of (callback_update c)).
      by rewrite Hr, Hr'.
Qed.

(** X5 after "add" was pressed for list A: the "back" button under an
    inaccessible message. *)
Lemma handlers_raise_attribute_error_only_witness :
  (feed_update int_ascii command_exact true 0 0
     (callback_update
        {| cb_from_user := 7; cb_chat := 7; cb_message_id := 10;
           cb_accessible := false; cb_data := py "back" |})
     (feed_update int_ascii command_exact true 0 0
        (callback_update
           {| cb_from_user := 7; cb_chat := 7; cb_message_id := 10;
              cb_accessible := true; cb_data := py "add:A" |})
        initial).2).1
  = handled (Raise AttributeError) [callback_answer].
Proof.
  destruct (handlers_raise_attribute_error_only int_ascii command_exact true
              0 0
              (callback_update
                 {| cb_from_user := 7; cb_chat := 7; cb_message_id := 10;
                    cb_accessible := false; cb_data := py "back" |})
              (feed_update int_ascii command_exact true 0 0
                 (callback_update
                    {| cb_from_user := 7; cb_chat := 7; cb_message_id := 10;
                       cb_accessible := true; cb_data := py "add:A" |})
                 initial).2
              (reachable_update int_ascii command_exact true 0 0 _ _
                 (reachable_initial int_ascii command_exact true)))
    as (_ & _ & Hbutton).
  destruct (Hbutton _ eq_refl) as [_ Hraises].
  apply Hraises; [reflexivity|reflexivity|]. by eexists.
Defined.

(** X6. Every word of every list of a reachable state is a trimmed word
    that is not empty: it begins and ends with a character that is no
    whitespace.  [add_word] is the only writer and stores nothing else. *)
Theorem reachable_words_trimmed (int : pystr -> option Z)
  (command : pystr -> Message -> bool) (has_answer : bool) (w : world) (u : Z) (l x : pystr) :
  reachable int command has_answer w ->
  x ∈ select_words u l (w_db w) ->
  x <> [] /\ strip x = x
  /\ forall c s, x = c :: s \/ x = s ++ [c] -> isspace c = false.
Proof.
  intros Hreach Hx.
  destruct (reachable_world_ok int command has_answer w Hreach) as [[_ Htr] _].
  apply elem_of_select_words in Hx. destruct (Htr _ Hx) as [Hs Hne].
  simpl in Hs, Hne. split_and!; [done|done|].
  intros c s [Hc|Hc]; rewrite <- Hs in Hc;
    [by eapply strip_head|by eapply strip_last].
Qed.

(** X6 after " foo " was submitted for list A. *)
Lemma reachable_words_trimmed_witness :
  py "foo" <> [] /\ strip (py "foo") = py "foo"
  /\ forall c s, py "foo" = c :: s \/ py "foo" = s ++ [c] -> isspace c = false.
Proof.
  apply (reachable_words_trimmed int_ascii command_exact true
           (feed_update int_ascii command_exact true 0 0
              (message_update
                 {| msg_from_user := 7; msg_chat := 7; msg_message_id := 30;
                    msg_text := Some (py " foo ") |})
              (feed_update int_ascii command_exact true 0 0
                 (callback_update
                    {| cb_from_user := 7; cb_chat := 7; cb_message_id := 10;
             cb_accessible := true;
                       cb_data := py "add:A" |})
                 initial).2).2
           7 (py "A") (py "foo")).
  - do 2 apply reachable_update. apply reachable_initial.
  - vm_compute. left.
Defined.

Section Picker.

Context (int : pystr -> option Z) (has_answer : bool).

(** An index within the range, on a table of trimmed and unique words. *)
Lemma cb_do_remove_in_range c e p0 l digits i word :
  split colon 2 (cb_data c) = [p0; l; digits] ->
  int digits = Some (Z.of_nat i) ->
  table_ok (db e) ->
  select_words (cb_from_user c) l (db e) !! i = Some word ->
  cb_do_remove int has_answer c e =
  edits c e (filter (fun r => r <> Row (cb_from_user c) l word) (db e))
    (state e)
    (add_suffix
       (edit_view (cb_from_user c) l
          (filter (fun r => r <> Row (cb_from_user c) l word) (db e)))
       Removed)
    (kb_edit l)
  /\ select_words (cb_from_user c) l
       (filter (fun r => r <> Row (cb_from_user c) l word) (db e))
     = delete i (select_words (cb_from_user c) l (db e))
  /\ table_ok (filter (fun r => r <> Row (cb_from_user c) l word) (db e)).
Proof.
  intros Hsplit Hint Hok Hword.
  destruct (remove_word_listed (cb_from_user c) l word (db e) i Hok Hword)
    as [Hrm Hview].
  split_and!; [|done|by apply table_ok_filter].
  rewrite cb_do_remove_eq, Hsplit, Hint. cbn zeta. unfold position.
  rewrite decide_True by lia. rewrite Nat2Z.id, Hword.
  unfold after, value. by rewrite Hrm.
Qed.

Lemma make_remove_kb_lookup l words i word :
  words !! i = Some word ->
  make_remove_kb l words !! i
  = Some (Button (WordCaption word)
            (py "do_remove:" ++ l ++ [colon] ++ str_of_nat i)).
Proof.
  intros Hw. unfold make_remove_kb, keyboard.
  rewrite lookup_app_l by (rewrite length_imap; by eapply lookup_lt_Some).
  by rewrite list_lookup_imap, Hw.
Qed.

Lemma split_do_remove l digits :
  colon ∉ l ->
  split colon 2 (py "do_remove:" ++ l ++ [colon] ++ digits)
  = [py "do_remove"; l; digits].
Proof.
  intros Hl.
  change (py "do_remove:" ++ l ++ [colon] ++ digits)
    with (py "do_remove" ++ colon :: l ++ colon :: digits).
  apply split_second; [|done]. by apply no_colon_literal.
Qed.

End Picker.

(** X7. The picker and the removal fit together.  For a list name without
    a colon, [cb_remove_show_list] shows on an accessible message one
    button per word of the ordered view, in that order, and a back button;
    when [int] reads the index that [make_remove_kb] wrote, pressing the
    button at position [i] deletes the word that button shows, and no other
    row. *)
Theorem picker_button_removes_its_word (int : pystr -> option Z)
  (has_answer : bool) (c_show c_press : CallbackQuery) (e : env) (l : pystr)
  (i : nat) (word : pystr) :
  cb_data c_show = py "remove:" ++ l ->
  cb_accessible c_show = true ->
  colon ∉ l ->
  table_ok (db e) ->
  select_words (cb_from_user c_show) l (db e) !! i = Some word ->
  int (str_of_nat i) = Some (Z.of_nat i) ->
  exists kb b,
    cb_remove_show_list c_show e =
    (Ok tt,
     Env (db e) (state e)
         (sent e ++ [callback_answer;
                     edit_text (cb_chat c_show) (cb_message_id c_show)
                       (RemovePromptText l) kb]))
    /\ length kb = S (length (select_words (cb_from_user c_show) l (db e)))
    /\ kb !! i = Some b
    /\ button_text b = WordCaption word
    /\ (cb_from_user c_press = cb_from_user c_show ->
        cb_data c_press = callback_data b ->
        db (after (cb_do_remove int has_answer c_press)
              (after (cb_remove_show_list c_show) e))
        = filter (fun r => r <> Row (cb_from_user c_show) l word) (db e)
        /\ select_words (cb_from_user c_show) l
             (db (after (cb_do_remove int has_answer c_press)
                    (after (cb_remove_show_list c_show) e)))
           = delete i (select_words (cb_from_user c_show) l (db e))).
Proof.
  intros Hc Hacc Hl Hok Hword Hint.
  assert (select_words (cb_from_user c_show) l (db e) <> []) as Hne
    by (intros He; by rewrite He in Hword).
  assert (cb_remove_show_list c_show e =
          (Ok tt,
           Env (db e) (state e)
               (sent e ++ [callback_answer;
                           edit_text (cb_chat c_show) (cb_message_id c_show)
                             (RemovePromptText l)
                             (make_remove_kb l
                                (select_words (cb_from_user c_show) l
                                   (db e)))]))) as Hshow.
  { rewrite (cb_remove_show_list_eq c_show e l Hc), decide_False by done.
    unfold edits. by rewrite Hacc. }
  exists (make_remove_kb l (select_words (cb_from_user c_show) l (db e))).
  eexists. split_and!.
  - done.
  - unfold make_remove_kb, keyboard. rewrite length_app.
    rewrite (length_imap _ (select_words (cb_from_user c_show) l (db e))).
    simpl. lia.
  - by apply make_remove_kb_lookup.
  - done.
  - intros Hu Hd. simpl in Hd. unfold after at 2 4.
    rewrite Hshow. cbn [snd].
    destruct (cb_do_remove_in_range int has_answer c_press
                (Env (db e) (state e)
                   (sent e ++ [callback_answer;
                               edit_text (cb_chat c_show)
                                 (cb_message_id c_show)
                                 (RemovePromptText l)
                                 (make_remove_kb l
                                    (select_words (cb_from_user c_show) l
                                       (db e)))]))
                (py "do_remove") l (str_of_nat i) i word)
      as (Heq & Hview & _); try done.
    + rewrite Hd. by apply split_do_remove.
    + by rewrite Hu.
    + unfold after. rewrite Heq.
      match goal with
      | |- context [edits ?c ?e ?t ?st ?v ?kb] =>
          destruct (edits_after c e t st v kb) as [-> _]
      end.
      cbn [db]. rewrite Hu in Hview |- *. done.
Qed.

(** X7 on a list of two words: the second button removes the second word. *)
Lemma picker_button_removes_its_word_witness :
  exists kb b,
    cb_remove_show_list
      {| cb_from_user := 1; cb_chat := 1; cb_message_id := 10;
         cb_accessible := true; cb_data := py "remove:A" |}
      (Env [Row 1 (py "A") (py "b"); Row 1 (py "A") (py "a")] idle [])
    = (Ok tt,
       Env [Row 1 (py "A") (py "b"); Row 1 (py "A") (py "a")] idle
           ([] ++ [callback_answer;
                   edit_text 1 10 (RemovePromptText (py "A")) kb]))
    /\ length kb
       = S (length (select_words 1 (py "A")
                      [Row 1 (py "A") (py "b"); Row 1 (py "A") (py "a")]))
    /\ kb !! 1%nat = Some b
    /\ button_text b = WordCaption (py "b")
    /\ (1%Z = 1%Z ->
        py "do_remove:A:1" = callback_data b ->
        db (after (cb_do_remove int_ascii true
                     {| cb_from_user := 1; cb_chat := 1; cb_message_id := 10;
                        cb_accessible := true;
                        cb_data := py "do_remove:A:1" |})
              (after (cb_remove_show_list
                        {| cb_from_user := 1; cb_chat := 1;
                           cb_message_id := 10; cb_accessible := true;
                           cb_data := py "remove:A" |})
                 (Env [Row 1 (py "A") (py "b"); Row 1 (py "A") (py "a")]
                    idle [])))
        = filter (fun r => r <> Row 1 (py "A") (py "b"))
            [Row 1 (py "A") (py "b"); Row 1 (py "A") (py "a")]
        /\ select_words 1 (py "A")
             (db (after (cb_do_remove int_ascii true
                           {| cb_from_user := 1; cb_chat := 1;
                              cb_message_id := 10; cb_accessible := true;
                              cb_data := py "do_remove:A:1" |})
                    (after (cb_remove_show_list
                              {| cb_from_user := 1; cb_chat := 1;
                                 cb_message_id := 10; cb_accessible := true;
                                 cb_data := py "remove:A" |})
                       (Env [Row 1 (py "A") (py "b"); Row 1 (py "A") (py "a")]
                          idle []))))
           = delete 1%nat
               (select_words 1 (py "A")
                  [Row 1 (py "A") (py "b"); Row 1 (py "A") (py "a")])).
Proof.
  apply (picker_button_removes_its_word int_ascii true
           {| cb_from_user := 1; cb_chat := 1; cb_message_id := 10;
              cb_accessible := true; cb_data := py "remove:A" |}
           {| cb_from_user := 1; cb_chat := 1; cb_message_id := 10;
              cb_accessible := true; cb_data := py "do_remove:A:1" |}
           (Env [Row 1 (py "A") (py "b"); Row 1 (py "A") (py "a")] idle [])
           (py "A") 1%nat (py "b")).
  - reflexivity.
  - reflexivity.
  - apply no_colon_literal. reflexivity.
  - split.
    + unfold unique. apply (bool_decide_unpack _). vm_compute. exact I.
    + intros r Hr. repeat (apply elem_of_cons in Hr as [->|Hr]);
        [by vm_compute..|by apply elem_of_nil in Hr].
  - reflexivity.
  - reflexivity.
Defined.

(** X8. The index of a removal is read against the view of the moment, not
    against the picker that was shown.  On a table of trimmed and unique
    words, the same removal callback received twice deletes the word at
    that position and then the word that moved into it; when the position
    was the last one, the second callback deletes nothing and, the message
    being accessible, is answered with the plain edit screen. *)
Theorem repeated_removal_takes_next_word (int : pystr -> option Z)
  (has_answer : bool) (c : CallbackQuery) (e : env) (p0 l digits : pystr)
  (i : nat) (w1 : pystr) :
  split colon 2 (cb_data c) = [p0; l; digits] ->
  int digits = Some (Z.of_nat i) ->
  table_ok (db e) ->
  select_words (cb_from_user c) l (db e) !! i = Some w1 ->
  let once := after (cb_do_remove int has_answer c) e in
  let twice := after (cb_do_remove int has_answer c) once in
  select_words (cb_from_user c) l (db once)
  = delete i (select_words (cb_from_user c) l (db e))
  /\ (forall w2,
        select_words (cb_from_user c) l (db e) !! S i = Some w2 ->
        select_words (cb_from_user c) l (db twice)
        = delete i (delete i (select_words (cb_from_user c) l (db e)))
        /\ Row (cb_from_user c) l w2 ∉ db twice)
  /\ (length (select_words (cb_from_user c) l (db e)) = S i ->
      db twice = db once
      /\ (cb_accessible c = true ->
          sent twice
          = sent once
            ++ [callback_answer;
                edit_text (cb_chat c) (cb_message_id c)
                  (edit_view (cb_from_user c) l (db once))
                  (kb_edit l)])).
Proof.
  intros Hsplit Hint Hok Hw1 once twice.
  destruct (cb_do_remove_in_range int has_answer c e p0 l digits i w1)
    as (Heq1 & Hview1 & Hok1); try done.
  set (t1 := filter (fun r => r <> Row (cb_from_user c) l w1) (db e)) in *.
  assert (db once = t1 /\ state once = state e) as [Hdb1 Hst1].
  { unfold once, after. rewrite Heq1. apply edits_after. }
  split_and!.
  - by rewrite Hdb1.
  - intros w2 Hw2.
    assert (select_words (cb_from_user c) l (db once) !! i = Some w2) as Hw2'.
    { rewrite Hdb1, Hview1, list_lookup_delete_ge by lia. done. }
    destruct (cb_do_remove_in_range int has_answer c once p0 l digits i w2)
      as (Heq2 & Hview2 & _); try done; [by rewrite Hdb1|].
    assert (db twice
            = filter (fun r => r <> Row (cb_from_user c) l w2) (db once))
      as ->.
    { unfold twice, after. rewrite Heq2. apply edits_after. }
    split.
    + by rewrite Hview2, Hdb1, Hview1.
    + by intros [? _]%list_elem_of_filter.
  - intros Hlen.
    assert (position (select_words (cb_from_user c) l (db once)) (Z.of_nat i)
            = None) as Hnone.
    { apply position_None. right.
      rewrite Hdb1, Hview1, length_delete by eauto. lia. }
    unfold twice, after.
    rewrite (cb_do_remove_eq int has_answer c once), Hsplit, Hint.
    cbn zeta. rewrite Hnone.
    destruct (cb_accessible c); by cbn.
Qed.

(** X8 on a list of three words and index 0, pressed twice. *)
Lemma repeated_removal_takes_next_word_witness :
  select_words 1 (py "A")
    (db (after (cb_do_remove int_ascii true
                  {| cb_from_user := 1; cb_chat := 1; cb_message_id := 10;
                     cb_accessible := true; cb_data := py "do_remove:A:0" |})
           (after (cb_do_remove int_ascii true
                     {| cb_from_user := 1; cb_chat := 1; cb_message_id := 10;
                        cb_accessible := true;
                        cb_data := py "do_remove:A:0" |})
              (Env [Row 1 (py "A") (py "a"); Row 1 (py "A") (py "b");
                    Row 1 (py "A") (py "c")] idle []))))
  = delete 0%nat
      (delete 0%nat
         (select_words 1 (py "A")
            [Row 1 (py "A") (py "a"); Row 1 (py "A") (py "b");
             Row 1 (py "A") (py "c")])).
Proof.
  destruct (repeated_removal_takes_next_word int_ascii true
              {| cb_from_user := 1; cb_chat := 1; cb_message_id := 10;
                 cb_accessible := true; cb_data := py "do_remove:A:0" |}
              (Env [Row 1 (py "A") (py "a"); Row 1 (py "A") (py "b");
                    Row 1 (py "A") (py "c")] idle [])
              (py "do_remove") (py "A") (py "0") 0%nat (py "a"))
    as (_ & Hnext & _).
  - reflexivity.
  - reflexivity.
  - split.
    + unfold unique. apply (bool_decide_unpack _). vm_compute. exact I.
    + intros r Hr. repeat (apply elem_of_cons in Hr as [->|Hr]);
        [by vm_compute..|by apply elem_of_nil in Hr].
  - reflexivity.
  - apply (Hnext (py "b")). reflexivity.
Defined.

Section Resubmission.

Lemma tally_all_listed u l lines t :
  (forall line, line ∈ lines -> Row u l (strip line) ∈ t) ->
  tally u l lines t = (0%nat, length lines, t).
Proof.
  induction lines as [|line lines IH]; intros Hall; simpl; [done|].
  rewrite add_word_eq.
  assert (Row u l (strip line) ∈ t) as Hin by (apply Hall; left).
  assert (tally u l lines t = (0%nat, length lines, t)) as Hrest
    by (apply IH; intros x Hx; apply Hall; by right).
  destruct (decide (strip line = [])); [|rewrite decide_True by done];
    by rewrite Hrest.
Qed.

End Resubmission.

(** X9. A text that is submitted a second time for the same list adds
    nothing: [msg_add] leaves the table as the first submission left it and
    reports no line added and every remaining line skipped. *)
Theorem resubmitted_text_adds_nothing (m : Message) (e e2 : env)
  (l : pystr) (anchor anchor2 : Z) (raw : pystr) :
  data_list_name (ctx_data (state e)) = Some l ->
  data_menu_message_id (ctx_data (state e)) = Some anchor ->
  msg_text m = Some raw ->
  db e2 = db (after (msg_add m) e) ->
  data_list_name (ctx_data (state e2)) = Some l ->
  data_menu_message_id (ctx_data (state e2)) = Some anchor2 ->
  msg_add m e2 =
  (Ok tt,
   Env (db e2) idle
       (sent e2 ++ [message_delete (msg_chat m) (msg_message_id m);
                    edit_text (msg_chat m) anchor2
                      (add_suffix (edit_view (msg_from_user m) l (db e2))
                         (AddedSkipped 0 (length (surviving_lines raw))))
                      (kb_edit l)])).
Proof.
  intros Hl Ha Ht Hdb Hl2 Ha2.
  rewrite (msg_add_eq m e2 l anchor2 raw) by done.
  rewrite tally_all_listed; [done|].
  intros line Hline. rewrite Hdb. unfold after.
  rewrite (msg_add_eq m e l anchor raw) by done.
  pose proof (tally_elem_of (msg_from_user m) l (surviving_lines raw) (db e)
                (surviving_lines_trimmed raw)) as Helem.
  destruct (tally _ _ _ _) as [[added skipped] t']. cbn [snd db].
  apply Helem. right. exists line. split; [done|].
  by destruct (surviving_lines_trimmed raw line Hline) as [-> _].
Qed.

(** X9 with the two lines x and y submitted twice for list A. *)
Lemma resubmitted_text_adds_nothing_witness :
  msg_add
    {| msg_from_user := 1; msg_chat := 1; msg_message_id := 31;
       msg_text := Some (py "x" ++ [0x0A] ++ py "y") |}
    (Env [Row 1 (py "A") (py "x"); Row 1 (py "A") (py "y")]
       (Context (Some waiting_add) (FsmData (Some (py "A")) (Some 20%Z))) [])
  = (Ok tt,
     Env [Row 1 (py "A") (py "x"); Row 1 (py "A") (py "y")] idle
         ([] ++ [message_delete 1 31;
                 edit_text 1 20
                   (add_suffix
                      (edit_view 1 (py "A")
                         [Row 1 (py "A") (py "x"); Row 1 (py "A") (py "y")])
                      (AddedSkipped 0
                         (length (surviving_lines
                                    (py "x" ++ [0x0A] ++ py "y")))))
                   (kb_edit (py "A"))])).
Proof.
  apply (resubmitted_text_adds_nothing
           {| msg_from_user := 1; msg_chat := 1; msg_message_id := 31;
              msg_text := Some (py "x" ++ [0x0A] ++ py "y") |}
           (Env [] (Context (Some waiting_add)
                      (FsmData (Some (py "A")) (Some 10%Z))) [])
           (Env [Row 1 (py "A") (py "x"); Row 1 (py "A") (py "y")]
              (Context (Some waiting_add)
                 (FsmData (Some (py "A")) (Some 20%Z))) [])
           (py "A") 10%Z 20%Z (py "x" ++ [0x0A] ++ py "y"));
    reflexivity.
Defined.

(** X10. The two draws of [roll] exclude nothing: whenever [x] is listed in
    A and [y] in B for the user, some pair of draws makes [roll] return
    exactly [(x, y)], also when [x] and [y] are the same text. *)
Theorem roll_reaches_every_pair (u : Z) (t : table) (x y : pystr) :
  x ∈ select_words u (py "A") t ->
  y ∈ select_words u (py "B") t ->
  exists ra rb, value (Storage.roll ra rb u) t = Ok (Some x, Some y).
Proof.
  intros [i Hi]%list_elem_of_lookup [j Hj]%list_elem_of_lookup.
  exists i, j. unfold value, Storage.roll, bind. rewrite !get_words_eq.
  cbn [fst snd].
  rewrite decide_False
    by (intros [He|He]; [by rewrite He in Hi|by rewrite He in Hj]).
  unfold random_choice.
  rewrite (Nat.mod_small i) by (by eapply lookup_lt_Some).
  rewrite (Nat.mod_small j) by (by eapply lookup_lt_Some).
  by rewrite Hi, Hj.
Qed.

(** X10 with the same text in both lists. *)
Lemma roll_reaches_every_pair_witness :
  exists ra rb,
    value (Storage.roll ra rb 1)
      [Row 1 (py "A") (py "a"); Row 1 (py "A") (py "same");
       Row 1 (py "B") (py "same"); Row 1 (py "B") (py "z")]
    = Ok (Some (py "same"), Some (py "same")).
Proof.
  apply (roll_reaches_every_pair 1
           [Row 1 (py "A") (py "a"); Row 1 (py "A") (py "same");
            Row 1 (py "B") (py "same"); Row 1 (py "B") (py "z")]
           (py "same") (py "same")).
  - vm_compute. right. left.
  - vm_compute. left.
Defined.

(** X11. No button is dead, and none clears a list.  The payload of every
    button of every keyboard the bot builds is accepted by the filter of
    some callback handler, whatever the list name and the words; and no
    such payload starts with "clear:", so that [cb_clear] is never reached
    from a keyboard. *)
Theorem every_button_is_routed (int : pystr -> option Z)
  (command : pystr -> Message -> bool) (has_answer : bool) (ra rb : nat)
  (st : option EditStates) (l : pystr) (words : list pystr) (b : button)
  (c : CallbackQuery) :
  b ∈ kb_main \/ b ∈ kb_edit l \/ b ∈ kb_cancel \/ b ∈ make_remove_kb l words ->
  cb_data c = callback_data b ->
  is_Some (route int command has_answer ra rb (callback_update c) st)
  /\ startswith (py "clear:") (cb_data c) = false.
Proof.
  intros Hb Hd.
  assert (exists rest,
            callback_data b = py "back" \/ callback_data b = py "roll"
            \/ callback_data b = py "edit:" ++ rest
            \/ callback_data b = py "add:" ++ rest
            \/ callback_data b = py "remove:" ++ rest
            \/ callback_data b = py "remove_back:" ++ rest
            \/ callback_data b = py "do_remove:" ++ rest) as [rest Hshape].
  { destruct Hb as [Hb|[Hb|[Hb|Hb]]].
    - unfold kb_main in Hb.
      repeat (apply elem_of_cons in Hb as [->|Hb]);
        [exists (py "A")|exists (py "B")|exists []|by apply elem_of_nil in Hb];
        simpl; tauto.
    - unfold kb_edit in Hb.
      repeat (apply elem_of_cons in Hb as [->|Hb]);
        [exists l|exists l|exists []|by apply elem_of_nil in Hb];
        simpl; tauto.
    - unfold kb_cancel in Hb. apply list_elem_of_singleton in Hb as ->.
      exists []. simpl. tauto.
    - unfold make_remove_kb, keyboard in Hb.
      apply elem_of_app in Hb as [Hb| ->%list_elem_of_singleton].
      + apply elem_of_lookup_imap in Hb as (i & w & -> & _).
        exists (l ++ [colon] ++ str_of_nat i). simpl. tauto.
      + exists l. simpl. tauto. }
  rewrite Hd. unfold route. cbn [cb_data]. rewrite Hd.
  destruct Hshape as [->|[->|[->|[->|[->|[->| ->]]]]]];
    (split; [by eexists|done]).
Qed.

(** X11 on the button of the second word of a picker. *)
Lemma every_button_is_routed_witness :
  is_Some (route int_ascii command_exact true 0 0
             (callback_update
                {| cb_from_user := 1; cb_chat := 1; cb_message_id := 10;
             cb_accessible := true;
                   cb_data := py "do_remove:A:1" |})
             None)
  /\ startswith (py "clear:") (py "do_remove:A:1") = false.
Proof.
  apply (every_button_is_routed int_ascii command_exact true 0 0 None (py "A")
           [py "a"; py "b"]
           (Button (WordCaption (py "b")) (py "do_remove:A:1"))
           {| cb_from_user := 1; cb_chat := 1; cb_message_id := 10;
             cb_accessible := true;
              cb_data := py "do_remove:A:1" |}).
  - right. right. right. right. left.
  - reflexivity.
Defined.

Section FreshWords.

Implicit Types (t : table) (u : Z) (l : pystr).

Lemma tally_unique u l lines t :
  unique t -> let '(_, _, t') := tally u l lines t in unique t'.
Proof.
  revert t. induction lines as [|line lines IH]; intros t Hu; simpl; [done|].
  pose proof (add_word_unique u l line t Hu) as Hu1.
  destruct (Storage.add_word u l line t) as [ok t1]. simpl in Hu1.
  specialize (IH t1 Hu1). destruct (tally u l lines t1) as [[a s] t2].
  by destruct ok as [[]|].
Qed.

(** The number added is the number of distinct lines that were not listed. *)
Lemma tally_added_fresh u l lines t :
  unique t ->
  (forall line, line ∈ lines -> strip line = line /\ line <> []) ->
  let '(added, skipped, _) := tally u l lines t in
  added = length (remove_dups
                    (filter (fun x => x ∉ select_words u l t) lines))
  /\ (added + skipped = length lines)%nat.
Proof.
  intros Hu Hlines.
  pose proof (tally_counts u l lines t) as Hcount.
  pose proof (tally_growth u l lines t) as Hgrow.
  pose proof (tally_elem_of u l lines t Hlines) as Helem.
  pose proof (tally_unique u l lines t Hu) as Hu'.
  destruct (tally u l lines t) as [[added skipped] t']. split; [|done].
  assert (select_words u l t'
          ≡ₚ select_words u l t
             ++ remove_dups (filter (fun x => x ∉ select_words u l t) lines))
    as Hperm.
  { apply NoDup_Permutation.
    - by apply select_words_NoDup.
    - apply NoDup_app. split_and!.
      + by apply select_words_NoDup.
      + intros x Hx [Hnew _]%elem_of_remove_dups%list_elem_of_filter. done.
      + apply NoDup_remove_dups.
    - intros x. rewrite elem_of_app, elem_of_remove_dups, list_elem_of_filter.
      rewrite !elem_of_select_words, Helem. split.
      + intros [Hx|(line & Hline & [= ->])]; [by left|].
        destruct (decide (Row u l line ∈ t)); [by left|by right].
      + intros [Hx|[_ Hx]]; [by left|]. right. by exists x. }
  apply Permutation_length in Hperm. rewrite length_app in Hperm. lia.
Qed.

End FreshWords.

(** X12. What [msg_add] reports as added is the number of distinct lines
    of the text that were not yet listed, and the rest of the lines that
    reached [add_word] are reported as skipped: a word repeated inside the
    text counts once as added and otherwise as skipped. *)
Theorem added_counts_distinct_new_words (m : Message) (e : env) (l : pystr)
  (anchor : Z) (raw : pystr) :
  unique (db e) ->
  data_list_name (ctx_data (state e)) = Some l ->
  data_menu_message_id (ctx_data (state e)) = Some anchor ->
  msg_text m = Some raw ->
  exists t',
    msg_add m e =
    (Ok tt,
     Env t' idle
         (sent e ++ [message_delete (msg_chat m) (msg_message_id m);
                     edit_text (msg_chat m) anchor
                       (add_suffix (edit_view (msg_from_user m) l t')
                          (AddedSkipped
                             (length
                                (remove_dups
                                   (filter
                                      (fun x =>
                                         x ∉ select_words (msg_from_user m) l
                                               (db e))
                                      (surviving_lines raw))))
                             (length (surviving_lines raw)
                              - length
                                  (remove_dups
                                     (filter
                                        (fun x =>
                                           x ∉ select_words (msg_from_user m)
                                                 l (db e))
                                        (surviving_lines raw))))))
                       (kb_edit l)])).
Proof.
  intros Hu Hl Ha Ht. rewrite (msg_add_eq m e l anchor raw) by done.
  pose proof (tally_added_fresh (msg_from_user m) l (surviving_lines raw)
                (db e) Hu (surviving_lines_trimmed raw)) as Hfresh.
  destruct (tally _ _ _ _) as [[added skipped] t'].
  destruct Hfresh as [Hadded Hsum]. exists t'.
  rewrite <- Hadded. by replace (length (surviving_lines raw) - added)%nat
    with skipped by lia.
Qed.

(** X12 with the lines x, x, y, z submitted to a list that holds y. *)
Lemma added_counts_distinct_new_words_witness :
  exists t',
    msg_add
      {| msg_from_user := 1; msg_chat := 1; msg_message_id := 31;
         msg_text := Some (py "x" ++ [0x0A] ++ py "x" ++ [0x0A] ++ py "y"
                           ++ [0x0A] ++ py "z") |}
      (Env [Row 1 (py "A") (py "y")]
         (Context (Some waiting_add) (FsmData (Some (py "A")) (Some 20%Z))) [])
    = (Ok tt,
       Env t' idle
           ([] ++ [message_delete 1 31;
                   edit_text 1 20
                     (add_suffix (edit_view 1 (py "A") t') (AddedSkipped 2 2))
                     (kb_edit (py "A"))])).
Proof.
  apply (added_counts_distinct_new_words
           {| msg_from_user := 1; msg_chat := 1; msg_message_id := 31;
              msg_text := Some (py "x" ++ [0x0A] ++ py "x" ++ [0x0A] ++ py "y"
                                ++ [0x0A] ++ py "z") |}
           (Env [Row 1 (py "A") (py "y")]
              (Context (Some waiting_add)
                 (FsmData (Some (py "A")) (Some 20%Z))) [])
           (py "A") 20%Z
           (py "x" ++ [0x0A] ++ py "x" ++ [0x0A] ++ py "y" ++ [0x0A] ++ py "z"));
    try reflexivity.
  unfold unique. apply (bool_decide_unpack _). vm_compute. exact I.
Defined.

(** X13. The edit screen and its buttons agree on the list.  [cb_edit] for
    the payload of list [l] ends the session and shows, on an accessible
    message, the screen of [l] with [kb_edit l]; the add button of that
    keyboard opens a session for exactly [l], anchored at the message
    pressed, and the remove button shows the picker of [l], or the screen
    of [l] with the notice that nothing can be removed when [l] is empty.
    This holds for every list name, colons included. *)
Theorem edit_screen_buttons_keep_the_list (c_edit c_add c_remove : CallbackQuery)
  (e e' : env) (l : pystr) :
  cb_data c_edit = py "edit:" ++ l ->
  cb_accessible c_edit = true ->
  exists d_add d_remove,
    cb_edit c_edit e =
    (Ok tt,
     Env (db e) idle
         (sent e ++ [callback_answer;
                     edit_text (cb_chat c_edit) (cb_message_id c_edit)
                       (edit_view (cb_from_user c_edit) l (db e))
                       [Button AddWord d_add; Button RemoveWord d_remove;
                        Button Back (py "back")]]))
    /\ (cb_data c_add = d_add ->
        state (after (cb_add c_add) e')
        = Context (Some waiting_add)
            (FsmData (Some l) (Some (cb_message_id c_add)))
        /\ db (after (cb_add c_add) e') = db e')
    /\ (cb_data c_remove = d_remove ->
        cb_accessible c_remove = true ->
        after (cb_remove_show_list c_remove) e' =
        Env (db e') (state e')
            (sent e' ++ [callback_answer;
                         if decide (select_words (cb_from_user c_remove) l
                                      (db e') = [])
                         then edit_text (cb_chat c_remove)
                                (cb_message_id c_remove)
                                (add_suffix
                                   (edit_view (cb_from_user c_remove) l (db e'))
                                   NothingToRemove)
                                (kb_edit l)
                         else edit_text (cb_chat c_remove)
                                (cb_message_id c_remove)
                                (RemovePromptText l)
                                (make_remove_kb l
                                   (select_words (cb_from_user c_remove) l
                                      (db e')))])).
Proof.
  intros Hc Hacc. exists (py "add:" ++ l), (py "remove:" ++ l). split_and!.
  - rewrite (cb_edit_eq c_edit e l Hc). unfold edits. by rewrite Hacc.
  - intros Hd. unfold after.
    destruct (cb_add_after c_add e' l) as [Hdb Hst];
      [by rewrite Hd, split_add|done].
  - intros Hd Hacc'. unfold after.
    rewrite (cb_remove_show_list_eq c_remove e' l Hd). unfold edits.
    rewrite Hacc'. by destruct (decide _).
Qed.

(** X13 for a list name with a colon in it. *)
Lemma edit_screen_buttons_keep_the_list_witness :
  exists d_add d_remove,
    cb_edit {| cb_from_user := 1; cb_chat := 1; cb_message_id := 10;
               cb_accessible := true; cb_data := py "edit:" ++ py "A:B" |}
      (Env [] idle [])
    = (Ok tt,
       Env [] idle
           ([] ++ [callback_answer;
                   edit_text 1 10 (edit_view 1 (py "A:B") [])
                     [Button AddWord d_add; Button RemoveWord d_remove;
                      Button Back (py "back")]]))
    /\ (py "add:A:B" = d_add ->
        state (after (cb_add {| cb_from_user := 1; cb_chat := 1;
                                cb_message_id := 11; cb_accessible := true;
                                cb_data := py "add:A:B" |})
                 (Env [] idle []))
        = Context (Some waiting_add) (FsmData (Some (py "A:B")) (Some 11%Z))
        /\ db (after (cb_add {| cb_from_user := 1; cb_chat := 1;
                                cb_message_id := 11; cb_accessible := true;
                                cb_data := py "add:A:B" |})
                 (Env [] idle [])) = [])
    /\ (py "remove:A:B" = d_remove ->
        true = true ->
        after (cb_remove_show_list
                 {| cb_from_user := 1; cb_chat := 1; cb_message_id := 12;
                    cb_accessible := true; cb_data := py "remove:A:B" |})
          (Env [] idle []) =
        Env [] idle
            ([] ++ [callback_answer;
                    if decide (select_words 1 (py "A:B") [] = [])
                    then edit_text 1 12
                           (add_suffix (edit_view 1 (py "A:B") [])
                              NothingToRemove)
                           (kb_edit (py "A:B"))
                    else edit_text 1 12 (RemovePromptText (py "A:B"))
                           (make_remove_kb (py "A:B")
                              (select_words 1 (py "A:B") []))])).
Proof.
  apply (edit_screen_buttons_keep_the_list
           {| cb_from_user := 1; cb_chat := 1; cb_message_id := 10;
              cb_accessible := true; cb_data := py "edit:" ++ py "A:B" |}
           {| cb_from_user := 1; cb_chat := 1; cb_message_id := 11;
              cb_accessible := true; cb_data := py "add:A:B" |}
           {| cb_from_user := 1; cb_chat := 1; cb_message_id := 12;
              cb_accessible := true; cb_data := py "remove:A:B" |}
           (Env [] idle []) (Env [] idle []) (py "A:B")); reflexivity.
Defined.

Section OneLine.

Context (int : pystr -> option Z) (command : pystr -> Message -> bool)
  (has_answer : bool).

Lemma elem_of_rev (c : N) (s : pystr) : c ∈ rev s -> c ∈ s.
Proof. rewrite !list_elem_of_In. apply in_rev. Qed.

Lemma splitlines_from_one_line n cur s line c :
  (length s <= n)%nat ->
  (forall x, x ∈ cur -> islinebreak x = false) ->
  line ∈ splitlines_from cur s -> c ∈ line -> islinebreak c = false.
Proof.
  revert cur s. induction n as [|n IH]; intros cur s Hn Hcur.
  - destruct s; [|simpl in Hn; lia]. cbn [splitlines_from].
    destruct cur; [by intros ?%elem_of_nil|].
    intros ->%list_elem_of_singleton ?%elem_of_rev. by apply Hcur.
  - destruct s as [|x s]; cbn [splitlines_from].
    { destruct cur; [by intros ?%elem_of_nil|].
      intros ->%list_elem_of_singleton ?%elem_of_rev. by apply Hcur. }
    simpl in Hn. destruct (islinebreak x) eqn:Hx.
    + assert (forall rest, (length rest <= n)%nat ->
                line ∈ rev cur :: splitlines_from [] rest ->
                c ∈ line -> islinebreak c = false) as Hcut.
      { intros rest Hrest [->|Hline]%elem_of_cons Hc.
        - apply Hcur. by apply elem_of_rev.
        - eapply (IH [] rest); [done| |done..]. by intros ? ?%elem_of_nil. }
      destruct s as [|y s]; [apply Hcut; simpl; lia|].
      destruct ((x =? 13) && (y =? 10)); apply Hcut; simpl in *; lia.
    + apply IH; [lia|]. intros z [->|Hz]%elem_of_cons; [done|by apply Hcur].
Qed.

Lemma strip_subset s c : c ∈ strip s -> c ∈ s.
Proof.
  intros Hc. destruct (strip_decompose s) as (pre & post & Hs & _).
  rewrite Hs, !elem_of_app. tauto.
Qed.

Lemma surviving_lines_one_line raw line c :
  line ∈ surviving_lines raw -> c ∈ line -> islinebreak c = false.
Proof.
  unfold surviving_lines. intros [_ Hin]%list_elem_of_filter Hc.
  apply list_elem_of_fmap in Hin as (x & -> & Hx).
  apply strip_subset in Hc.
  by eapply (splitlines_from_one_line (length raw) [] raw x c);
    [lia|intros ? ?%elem_of_nil|..].
Qed.

Lemma one_line_filter (P : row -> Prop) `{!forall r, Decision (P r)} t :
  one_line t -> one_line (filter P t).
Proof. intros Ht r c [_ Hr]%list_elem_of_filter. by apply Ht. Qed.

Lemma msg_add_one_line m e : one_line (db e) -> one_line (db (msg_add m e).2).
Proof.
  intros Hone.
  destruct (msg_text m) as [raw|] eqn:Ht; [|by rewrite msg_add_no_text].
  destruct (data_list_name (ctx_data (state e))) as [l|] eqn:Hl.
  - destruct (data_menu_message_id (ctx_data (state e))) as [a|] eqn:Ha.
    + rewrite (msg_add_eq m e l a raw) by done.
      pose proof (tally_elem_of (msg_from_user m) l (surviving_lines raw)
                    (db e) (surviving_lines_trimmed raw)) as Helem.
      destruct (tally _ _ _ _) as [[added skipped] t']. cbn [snd db].
      intros r c [Hr|(line & Hline & ->)]%Helem Hc; [by eapply Hone|].
      by eapply surviving_lines_one_line.
    + unfold msg_add, bind, state_get_data. cbn. by rewrite Hl, Ha.
  - unfold msg_add, bind, state_get_data. cbn. by rewrite Hl.
Qed.

Lemma feed_update_one_line ra rb upd w :
  one_line (w_db w) ->
  one_line (w_db (feed_update int command has_answer ra rb upd w).2).
Proof.
  intros Hw. unfold feed_update.
  destruct (route _ _ _ _ _ _ _) as [h|] eqn:Hr; [|done].
  set (e0 := Env (w_db w) (context_of w (key_of upd)) []).
  assert (one_line (db (h e0).2)) as Hh; [|by destruct (h e0)].
  assert (forall u l x, preserves one_line (Storage.remove_word u l x))
    as Hremove.
  { intros u l x t Ht. rewrite remove_word_eq. by apply one_line_filter. }
  assert (forall u l, preserves one_line (Storage.clear_list u l)) as Hclear.
  { intros u l t Ht. rewrite clear_list_eq. by apply one_line_filter. }
  unfold route in Hr.
  destruct upd as [m|c];
    repeat match type of Hr with
           | (if ?b then _ else _) = _ => destruct b
           end;
    try discriminate; injection Hr as <-;
    first [ by apply msg_add_one_line
          | by apply (cmd_start_db one_line)
          | by apply (cmd_menu_db one_line)
          | by apply (cb_back_db one_line)
          | by apply (cb_edit_db one_line)
          | by apply (cb_roll_db one_line)
          | by apply (cb_add_db one_line)
          | by apply (cb_remove_show_list_db one_line)
          | by apply (cb_remove_back_db one_line)
          | by apply (cb_do_remove_db int has_answer one_line Hremove)
          | by apply (cb_clear_db one_line Hclear) ].
Qed.

Lemma reachable_one_line w :
  reachable int command has_answer w -> one_line (w_db w).
Proof.
  induction 1 as [|ra rb upd w Hw IH].
  - by intros r c Hr%elem_of_nil.
  - by apply feed_update_one_line.
Qed.

End OneLine.

(** X14. No word of a reachable state holds a line break: words enter the
    table through [msg_add] only, which cuts the submitted text at every
    line boundary before it calls [add_word].  So each word of a list takes
    one line of the preview. *)
Theorem reachable_words_are_one_line (int : pystr -> option Z)
  (command : pystr -> Message -> bool) (has_answer : bool) (w : world) (u : Z) (l x : pystr)
  (c : N) :
  reachable int command has_answer w ->
  x ∈ select_words u l (w_db w) -> c ∈ x -> islinebreak c = false.
Proof.
  intros Hreach Hx Hc. apply elem_of_select_words in Hx.
  by apply (reachable_one_line int command has_answer w Hreach _ c Hx).
Qed.

(** X14 after two lines ended by carriage return and line feed were
    submitted. *)
Lemma reachable_words_are_one_line_witness : islinebreak 0x62 = false.
Proof.
  apply (reachable_words_are_one_line int_ascii command_exact true
           (feed_update int_ascii command_exact true 0 0
              (message_update
                 {| msg_from_user := 7; msg_chat := 7; msg_message_id := 30;
                    msg_text := Some (py "a" ++ [0x0D; 0x0A] ++ py "b"
                                      ++ [0x0D; 0x0A]) |})
              (feed_update int_ascii command_exact true 0 0
                 (callback_update
                    {| cb_from_user := 7; cb_chat := 7; cb_message_id := 10;
             cb_accessible := true;
                       cb_data := py "add:A" |})
                 initial).2).2
           7 (py "A") (py "b") 0x62).
  - do 2 apply reachable_update. apply reachable_initial.
  - vm_compute. right. left.
  - left.
Defined.
